(** * The in-memory todo store of [routers/todos.py]

    A shallow embedding of the FastAPI todo router: the enumerations, the
    pydantic models, the module-level list [todos_db] and the route
    handlers, followed by the properties of the store that the
    specification states.

    Conventions of the embedding.
    - A Python [str] is a list of Unicode code points ([str]).  The two
      builtins whose tables are not part of the repository, [str.lower] and
      [str.isspace], are parameters of the development.
    - [datetime.now()] and [uuid4()] are read from two streams, [clock] and
      [uuid4]; the world counts how many values were drawn from each, so the
      [n]-th call of the process sees the [n]-th element.  A timestamp is
      the clock reading itself: [isoformat] renders it injectively and in
      order, so comparing readings is comparing the stored strings.
    - A todo is a Python [dict] with the same eight keys everywhere in the
      module; it is a record here.  A variable that holds such a dict is a
      reference into [todos_db]: its position together with the contents.
    - Handlers run in a state-and-exception monad [M] over the world.  An
      exception does not undo what was written before it was raised. *)

From Stdlib Require Import ZArith QArith Qround String Ascii.
From stdpp Require Import gmap strings list fin_maps.
Close Scope Q_scope.

(** ** Python strings *)

Abbreviation codepoint := N (only parsing).
Abbreviation str := (list N) (only parsing).

(** Source literals are written as UTF-8 text and decoded to code points. *)
Fixpoint utf8_decode (bs : list N) : str :=
  match bs with
  | [] => []
  | b0 :: bs1 =>
    if (b0 <? 128)%N then b0 :: utf8_decode bs1
    else match bs1 with
    | [] => []
    | b1 :: bs2 =>
      if (b0 <? 224)%N
      then ((b0 mod 32) * 64 + b1 mod 64)%N :: utf8_decode bs2
      else match bs2 with
      | [] => []
      | b2 :: bs3 =>
        if (b0 <? 240)%N
        then (((b0 mod 16) * 64 + b1 mod 64) * 64 + b2 mod 64)%N
               :: utf8_decode bs3
        else match bs3 with
        | [] => []
        | b3 :: bs4 =>
          ((((b0 mod 8) * 64 + b1 mod 64) * 64 + b2 mod 64) * 64
             + b3 mod 64)%N :: utf8_decode bs4
        end
      end
    end
  end.

Definition py (s : string) : str :=
  utf8_decode (N_of_ascii <$> list_ascii_of_string s).

(** [s.startswith(prefix)] *)
Fixpoint startswith (s prefix : str) {struct prefix} : bool :=
  match prefix, s with
  | [], _ => true
  | _ :: _, [] => false
  | p :: prefix', c :: s' => (p =? c)%N && startswith s' prefix'
  end.

(** [sub in s] *)
Fixpoint contains (s sub : str) : bool :=
  startswith s sub ||
  match s with
  | [] => false
  | _ :: s' => contains s' sub
  end.

(** [l[start:stop]] with Python's treatment of negative and too large
    bounds. *)
Definition slice_index (len i : Z) : Z :=
  if (i <? 0)%Z then Z.max (i + len) 0 else Z.min i len.

Definition slice {A : Type} (l : list A) (start stop : Z) : list A :=
  let len := Z.of_nat (length l) in
  let lo := slice_index len start in
  let hi := slice_index len stop in
  take (Z.to_nat (hi - lo)) (drop (Z.to_nat lo) l).

(** [round(x, 2)] on a float, with floats taken as exact rationals: round
    to the nearest hundredth, ties to the even one. *)
Definition round_half_even (x : Q) : Z :=
  let f := Qfloor x in
  match Qcompare (x - inject_Z f) (1 # 2) with
  | Lt => f
  | Gt => (f + 1)%Z
  | Eq => if Z.even f then f else (f + 1)%Z
  end.

Definition round2 (x : Q) : Q := Qred (round_half_even (x * 100) # 100).

(** ** Enumerations *)

Inductive TodoPriority := LOW | MEDIUM | HIGH.
Inductive TodoStatus := PENDING | IN_PROGRESS | COMPLETED.

#[global] Instance TodoPriority_eq_dec : EqDecision TodoPriority.
Proof. solve_decision. Defined.
#[global] Instance TodoStatus_eq_dec : EqDecision TodoStatus.
Proof. solve_decision. Defined.

(** Iteration order of the two classes. *)
Definition TodoPriority_members : list TodoPriority := [LOW; MEDIUM; HIGH].
Definition TodoStatus_members : list TodoStatus :=
  [PENDING; IN_PROGRESS; COMPLETED].

(** [member.value] *)
Definition TodoPriority_value (p : TodoPriority) : str :=
  match p with
  | LOW => py "low"
  | MEDIUM => py "medium"
  | HIGH => py "high"
  end.

Definition TodoStatus_value (s : TodoStatus) : str :=
  match s with
  | PENDING => py "pending"
  | IN_PROGRESS => py "in_progress"
  | COMPLETED => py "completed"
  end.

(** [member.name] *)
Definition TodoPriority_name (p : TodoPriority) : str :=
  match p with
  | LOW => py "LOW"
  | MEDIUM => py "MEDIUM"
  | HIGH => py "HIGH"
  end.

Definition TodoStatus_name (s : TodoStatus) : str :=
  match s with
  | PENDING => py "PENDING"
  | IN_PROGRESS => py "IN_PROGRESS"
  | COMPLETED => py "COMPLETED"
  end.

(** [str(member)].  Both classes are declared [(str, Enum)], not [StrEnum]:
    [Enum.__str__] is kept and prints the class and member name. *)
Definition TodoPriority_str (p : TodoPriority) : str :=
  py "TodoPriority." ++ TodoPriority_name p.

Definition TodoStatus_str (s : TodoStatus) : str :=
  py "TodoStatus." ++ TodoStatus_name s.

(** Truth value of an [Optional] enum argument ([if status_filter:]): [None]
    is false, a member of a [str]-mixed enum is true unless its value is the
    empty string. *)
Definition truthy {A : Type} (value : A → str) (x : option A) : bool :=
  match x with
  | None => false
  | Some m => negb (bool_decide (value m = []))
  end.

(** ** Records *)

Abbreviation Timestamp := Z (only parsing).

(** The dicts stored in [todos_db]. *)
Module Todo.
Record t := mk {
  id : str;
  title : str;
  description : option str;
  priority : TodoPriority;
  status : TodoStatus;
  due_date : option str;
  created_at : Timestamp;
  updated_at : Timestamp
}.
Definition set_title (v : str) (d : t) : t :=
  mk (id d) v (description d) (priority d) (status d) (due_date d)
     (created_at d) (updated_at d).
Definition set_description (v : str) (d : t) : t :=
  mk (id d) (title d) (Some v) (priority d) (status d) (due_date d)
     (created_at d) (updated_at d).
Definition set_priority (v : TodoPriority) (d : t) : t :=
  mk (id d) (title d) (description d) v (status d) (due_date d)
     (created_at d) (updated_at d).
Definition set_status (v : TodoStatus) (d : t) : t :=
  mk (id d) (title d) (description d) (priority d) v (due_date d)
     (created_at d) (updated_at d).
Definition set_due_date (v : str) (d : t) : t :=
  mk (id d) (title d) (description d) (priority d) (status d) (Some v)
     (created_at d) (updated_at d).
Definition set_updated_at (v : Timestamp) (d : t) : t :=
  mk (id d) (title d) (description d) (priority d) (status d) (due_date d)
     (created_at d) v.
End Todo.

Module TodoCreate.
Record t := mk {
  title : str;
  description : option str;
  priority : TodoPriority;
  due_date : option str
}.
End TodoCreate.

(** Every field of [TodoUpdate] is optional with default [None]; pydantic
    also records which fields the caller set.  [None] is a field that was
    not set, [Some None] one set to [null], [Some (Some v)] one set to [v]. *)
Module TodoUpdate.
Record t := mk {
  title : option (option str);
  description : option (option str);
  priority : option (option TodoPriority);
  status : option (option TodoStatus);
  due_date : option (option str)
}.
End TodoUpdate.

Module TodoResponse.
Record t := mk {
  id : str;
  title : str;
  description : option str;
  priority : TodoPriority;
  status : TodoStatus;
  due_date : option str;
  created_at : Timestamp;
  updated_at : Timestamp
}.
End TodoResponse.

Module SearchResponse.
Record t := mk {
  results : list TodoResponse.t;
  total_found : nat;
  search_term : str
}.
End SearchResponse.

Module StatsResponse.
Record t := mk {
  total_todos : Z;
  by_status : gmap str Z;
  by_priority : gmap str Z;
  completion_rate : Q;
  highest_priority_count : Z;
  message : option str
}.
End StatsResponse.

(** The [TodoResponse] built from a stored dict by keyword expansion. *)
Definition TodoResponse_of (todo : Todo.t) : TodoResponse.t :=
  TodoResponse.mk (Todo.id todo) (Todo.title todo) (Todo.description todo)
    (Todo.priority todo) (Todo.status todo) (Todo.due_date todo)
    (Todo.created_at todo) (Todo.updated_at todo).

(** ** The world and the handler monad *)

Inductive Exception :=
| HTTPException (status_code : Z) (detail : str)
| RequestValidationError
| ResponseValidationError.

Inductive result (A : Type) :=
| Return (a : A)
| Raise (e : Exception).
Arguments Return {A} a.
Arguments Raise {A} e.

Record World := mkWorld {
  todos_db : list Todo.t;
  now_calls : nat;
  uuid4_calls : nat
}.

Definition M (A : Type) : Type := World → result A * World.

#[global] Instance M_ret : MRet M := λ A a w, (Return a, w).
#[global] Instance M_bind : MBind M := λ A B k m w,
  match m w with
  | (Return a, w') => k a w'
  | (Raise e, w') => (Raise e, w')
  end.

#[global] Instance M_fmap : FMap M := λ A B f m w,
  match m w with
  | (Return a, w') => (Return (f a), w')
  | (Raise e, w') => (Raise e, w')
  end.

Definition raise {A : Type} (e : Exception) : M A := λ w, (Raise e, w).

Definition read_db : M (list Todo.t) := λ w, (Return (todos_db w), w).

Definition write_db (db : list Todo.t) : M unit := λ w,
  (Return (), mkWorld db (now_calls w) (uuid4_calls w)).

Section Router.

(** [str.lower] and [str.isspace] *)
Context (lower : str → str) (isspace : codepoint → bool).
(** successive results of [datetime.now()] and of [uuid4()] *)
Context (clock : nat → Timestamp) (uuid4 : nat → str).

(** [s.strip()] *)
Fixpoint lstrip (s : str) : str :=
  match s with
  | [] => []
  | c :: s' => if isspace c then lstrip s' else s
  end.

Definition rstrip (s : str) : str := reverse (lstrip (reverse s)).

Definition strip (s : str) : str := rstrip (lstrip s).

(** *** Utility functions *)

Definition generate_id : M str := λ w,
  (Return (uuid4 (uuid4_calls w)),
   mkWorld (todos_db w) (now_calls w) (S (uuid4_calls w))).

Definition get_current_timestamp : M Timestamp := λ w,
  (Return (clock (now_calls w)),
   mkWorld (todos_db w) (S (now_calls w)) (uuid4_calls w)).

(** The scan [for index, todo in enumerate(todos)] that stops at the first
    dict whose ["id"] equals [todo_id]. *)
Fixpoint first_with_id (todo_id : str) (index : nat) (todos : list Todo.t)
  : option (nat * Todo.t) :=
  match todos with
  | [] => None
  | todo :: rest =>
    if decide (Todo.id todo = todo_id) then Some (index, todo)
    else first_with_id todo_id (S index) rest
  end.

Definition find_todo_by_id (todo_id : str) : M (option (nat * Todo.t)) :=
  db ← read_db;
  mret (first_with_id todo_id 0 db).

Definition not_found_detail (todo_id : str) : str :=
  py "ID为 " ++ todo_id ++ py " 的待办事项未找到".

(** [if not todo:] holds for [None] only: a found dict has eight keys. *)
Definition ensure_todo_exists (todo_id : str) : M (nat * Todo.t) :=
  todo ← find_todo_by_id todo_id;
  match todo with
  | None => raise (HTTPException 404 (not_found_detail todo_id))
  | Some todo => mret todo
  end.

(** One [(field, value)] pair of an [update_data] dict; the value [None] is
    Python's [None]. *)
Inductive Item :=
| item_title (value : option str)
| item_description (value : option str)
| item_priority (value : option TodoPriority)
| item_status (value : option TodoStatus)
| item_due_date (value : option str).

(** [if value is not None: todo[field] = value] *)
Definition set_item (todo : Todo.t) (it : Item) : Todo.t :=
  match it with
  | item_title (Some v) => Todo.set_title v todo
  | item_description (Some v) => Todo.set_description v todo
  | item_priority (Some v) => Todo.set_priority v todo
  | item_status (Some v) => Todo.set_status v todo
  | item_due_date (Some v) => Todo.set_due_date v todo
  | _ => todo
  end.

(** The dict is changed in place: the new contents are written back at the
    position the reference points to, and returned for the caller's later
    reads of [todo]. *)
Definition safe_todo_update (todo : nat * Todo.t) (update_data : list Item)
  : M (nat * Todo.t) :=
  let d := foldl set_item todo.2 update_data in
  now ← get_current_timestamp;
  let d := Todo.set_updated_at now d in
  db ← read_db;
  _ ← write_db (<[todo.1 := d]> db);
  mret (todo.1, d).

Definition update_todo_fields (todo : nat * Todo.t) (update_data : list Item)
  : M (nat * Todo.t) :=
  safe_todo_update todo update_data.

(** *** Sample data *)

Definition initialize_sample_data : M (list Todo.t) :=
  id1 ← generate_id;
  c1 ← get_current_timestamp;
  u1 ← get_current_timestamp;
  id2 ← generate_id;
  c2 ← get_current_timestamp;
  u2 ← get_current_timestamp;
  id3 ← generate_id;
  c3 ← get_current_timestamp;
  u3 ← get_current_timestamp;
  mret [
    Todo.mk id1 (py "学习FastAPI") (Some (py "完成第三天的学习任务"))
      HIGH COMPLETED (Some (py "2024-01-01")) c1 u1;
    Todo.mk id2 (py "编写Todo API") (Some (py "实现CRUD操作"))
      MEDIUM IN_PROGRESS (Some (py "2024-01-02")) c2 u2;
    Todo.mk id3 (py "学习异步编程") (Some (py "理解async/await语法"))
      LOW PENDING (Some (py "2024-01-03")) c3 u3
  ].

(** Module import: [todos_db = []], then
    [todos_db.extend(initialize_sample_data())]. *)
Definition startup : World :=
  let w0 := mkWorld [] 0 0 in
  match initialize_sample_data w0 with
  | (Return sample_todos, w) =>
    mkWorld (todos_db w ++ sample_todos) (now_calls w) (uuid4_calls w)
  | (Raise _, w) => w
  end.

(** *** Route handlers *)

Definition get_all_todos (skip limit : Z) (status_filter : option TodoStatus)
    (priority : option TodoPriority) : M (list TodoResponse.t) :=
  db ← read_db;
  let filtered_todos := db in
  let filtered_todos :=
    if truthy TodoStatus_value status_filter
    then filter (λ todo, Some (Todo.status todo) = status_filter)
           filtered_todos
    else filtered_todos in
  let filtered_todos :=
    if truthy TodoPriority_value priority
    then filter (λ todo, Some (Todo.priority todo) = priority) filtered_todos
    else filtered_todos in
  let paginated_todos := slice filtered_todos skip (skip + limit) in
  mret (TodoResponse_of <$> paginated_todos).

Definition get_todo_by_id (todo_id : str) : M TodoResponse.t :=
  todo ← ensure_todo_exists todo_id;
  mret (TodoResponse_of todo.2).

Definition create_todo (todo : TodoCreate.t) : M TodoResponse.t :=
  new_id ← generate_id;
  created ← get_current_timestamp;
  updated ← get_current_timestamp;
  let new_todo :=
    Todo.mk new_id (TodoCreate.title todo) (TodoCreate.description todo)
      (TodoCreate.priority todo) PENDING (TodoCreate.due_date todo)
      created updated in
  db ← read_db;
  _ ← write_db (db ++ [new_todo]);
  mret (TodoResponse_of new_todo).

(** [todo_update.model_dump(exclude_unset=True)]: the fields that were set,
    in declaration order. *)
Definition model_dump_exclude_unset (u : TodoUpdate.t) : list Item :=
  from_option (λ v, [item_title v]) [] (TodoUpdate.title u) ++
  from_option (λ v, [item_description v]) [] (TodoUpdate.description u) ++
  from_option (λ v, [item_priority v]) [] (TodoUpdate.priority u) ++
  from_option (λ v, [item_status v]) [] (TodoUpdate.status u) ++
  from_option (λ v, [item_due_date v]) [] (TodoUpdate.due_date u).

Definition update_todo (todo_id : str) (todo_update : TodoUpdate.t)
  : M TodoResponse.t :=
  todo ← ensure_todo_exists todo_id;
  let update_data := model_dump_exclude_unset todo_update in
  todo ← safe_todo_update todo update_data;
  mret (TodoResponse_of todo.2).

Definition partial_update_todo (todo_id : str) (todo_update : TodoUpdate.t)
  : M TodoResponse.t :=
  todo ← ensure_todo_exists todo_id;
  let update_data := model_dump_exclude_unset todo_update in
  todo ← safe_todo_update todo update_data;
  mret (TodoResponse_of todo.2).

Record DeleteResult := mkDeleteResult {
  delete_message : str;
  deleted_todo : Todo.t;
  remaining_count : nat
}.

(** [todos_db.pop(index)] returns the element the scan stopped at. *)
Definition delete_todo (todo_id : str) : M DeleteResult :=
  db ← read_db;
  match first_with_id todo_id 0 db with
  | Some (index, todo) =>
    _ ← write_db (delete index db);
    db' ← read_db;
    mret (mkDeleteResult (py "待办事项删除成功") todo (length db'))
  | None => raise (HTTPException 404 (not_found_detail todo_id))
  end.

(** The values of the dict that [get_todo_stats] returns. *)
Inductive StatValue :=
| stat_int (n : Z)
| stat_float (x : Q)
| stat_dict (d : gmap str Z)
| stat_str (s : str).

(** Body of the counting loop over [todos_db]. *)
Definition count_todo (acc : gmap str Z * gmap str Z) (todo : Todo.t)
  : gmap str Z * gmap str Z :=
  let status_key := TodoStatus_str (Todo.status todo) in
  let priority_key := TodoPriority_str (Todo.priority todo) in
  (<[status_key := (default 0 (acc.1 !! status_key) + 1)%Z]> acc.1,
   <[priority_key := (default 0 (acc.2 !! priority_key) + 1)%Z]> acc.2).

Definition stats_counts (db : list Todo.t) : gmap str Z * gmap str Z :=
  let by_status : gmap str Z :=
    list_to_map ((λ status, (TodoStatus_value status, 0%Z))
                   <$> TodoStatus_members) in
  let by_priority : gmap str Z :=
    list_to_map ((λ priority, (TodoPriority_value priority, 0%Z))
                   <$> TodoPriority_members) in
  foldl count_todo (by_status, by_priority) db.

Definition get_todo_stats : M (gmap str StatValue) :=
  db ← read_db;
  let total := Z.of_nat (length db) in
  if (total =? 0)%Z then
    mret (list_to_map [
      (py "total_todos", stat_int 0);
      (py "by_status", stat_dict ∅);
      (py "by_priority", stat_dict ∅);
      (py "completion_rate", stat_int 0);
      (py "message", stat_str (py "暂无待办事项"))
    ])
  else
    let counts := stats_counts db in
    let by_status := counts.1 in
    let by_priority := counts.2 in
    let completed_count :=
      default 0%Z (by_status !! TodoStatus_value COMPLETED) in
    let completion_rate :=
      round2 (inject_Z completed_count / inject_Z total * 100)%Q in
    mret (list_to_map [
      (py "total_todos", stat_int total);
      (py "by_status", stat_dict by_status);
      (py "by_priority", stat_dict by_priority);
      (py "completion_rate", stat_float completion_rate);
      (py "highest_priority_count",
       stat_int (default 0%Z (by_priority !! TodoPriority_value HIGH)))
    ]).

Definition complete_message (todo_id : str) : str :=
  py "待办事项 " ++ todo_id ++ py " 已标记为完成".

Definition start_message (todo_id : str) : str :=
  py "待办事项 " ++ todo_id ++ py " 已开始处理".

Definition mark_todo_complete (todo_id : str) : M (str * TodoResponse.t) :=
  todo ← ensure_todo_exists todo_id;
  todo ← safe_todo_update todo [item_status (Some COMPLETED)];
  mret (complete_message todo_id, TodoResponse_of todo.2).

Definition start_todo (todo_id : str) : M (str * TodoResponse.t) :=
  todo ← ensure_todo_exists todo_id;
  todo ← safe_todo_update todo [item_status (Some IN_PROGRESS)];
  mret (start_message todo_id, TodoResponse_of todo.2).

(** Body of the search loop: [results.append(todo)] on a match. *)
Definition search_match (search_term : str) (todo : Todo.t) : bool :=
  let title_match := contains (lower (Todo.title todo)) search_term in
  let description_match :=
    match Todo.description todo with
    | Some description => contains (lower description) search_term
    | None => false
    end in
  title_match || description_match.

Definition search_step (search_term : str) (results : list Todo.t)
    (todo : Todo.t) : list Todo.t :=
  if search_match search_term todo then results ++ [todo] else results.

Definition search_todos (q : str) (skip limit : Z) : M SearchResponse.t :=
  if bool_decide (q = []) || (length (strip q) =? 0) then
    raise (HTTPException 400 (py "搜索关键词不能为空"))
  else
    let search_term := strip (lower q) in
    db ← read_db;
    let results := foldl (search_step search_term) [] db in
    let paginated_results := slice results skip (skip + limit) in
    mret (SearchResponse.mk (TodoResponse_of <$> paginated_results)
            (length results) search_term).

(** *** Request and response models

    What FastAPI does around a handler with the models the module declares:
    the JSON body of a request is validated into the parameter's model
    before the handler runs, and the value a handler returns is validated
    against the route's [response_model]. *)

(** A JSON value as far as the fields of the models tell values apart:
    [null], a string, or anything else (number, boolean, array, object). *)
Inductive Json := JNull | JString (s : str) | JOther.

(** [str] with [Field(min_length, max_length)] *)
Definition validate_str (min_length max_length : nat) (v : Json)
  : option str :=
  match v with
  | JString s =>
    if (min_length <=? length s) && (length s <=? max_length)
    then Some s else None
  | _ => None
  end.

(** [Optional[T]]: [null] is [None], anything else is validated as [T]. *)
Definition validate_optional {A : Type} (validate : Json → option A)
    (v : Json) : option (option A) :=
  match v with
  | JNull => Some None
  | _ => Some <$> validate v
  end.

Definition validate_plain_str (v : Json) : option str :=
  match v with
  | JString s => Some s
  | _ => None
  end.

(** An enum field accepts the value of one of its members. *)
Definition validate_enum {A : Type} (members : list A) (value : A → str)
    (v : Json) : option A :=
  match v with
  | JString s => list_find (λ m, value m = s) members ≫= λ im, Some im.2
  | _ => None
  end.

(** A field with a default: a missing key takes the default. *)
Definition field_or {A : Type} (default : A) (validate : Json → option A)
    (body : gmap str Json) (key : str) : option A :=
  match body !! key with
  | None => Some default
  | Some v => validate v
  end.

(** [TodoCreate]: [title] is required; keys that are not fields of the
    model (such as ["status"]) are ignored. *)
Definition TodoCreate_validate (body : gmap str Json) : option TodoCreate.t :=
  title ← body !! py "title" ≫= validate_str 1 100;
  description ←
    field_or None (validate_optional (validate_str 0 500)) body
      (py "description");
  priority ←
    field_or MEDIUM (validate_enum TodoPriority_members TodoPriority_value)
      body (py "priority");
  due_date ←
    field_or None (validate_optional validate_plain_str) body
      (py "due_date");
  Some (TodoCreate.mk title description priority due_date).

(** A field of [TodoUpdate]: unset when the key is missing. *)
Definition field_set {A : Type} (validate : Json → option A)
    (body : gmap str Json) (key : str) : option (option (option A)) :=
  match body !! key with
  | None => Some None
  | Some v => Some <$> validate_optional validate v
  end.

Definition TodoUpdate_validate (body : gmap str Json) : option TodoUpdate.t :=
  title ← field_set (validate_str 1 100) body (py "title");
  description ← field_set (validate_str 0 500) body (py "description");
  priority ←
    field_set (validate_enum TodoPriority_members TodoPriority_value) body
      (py "priority");
  status ←
    field_set (validate_enum TodoStatus_members TodoStatus_value) body
      (py "status");
  due_date ← field_set validate_plain_str body (py "due_date");
  Some (TodoUpdate.mk title description priority status due_date).

(** Validation of a returned dict against [StatsResponse]: five required
    fields and the optional [message].  An [int] is accepted where a [float]
    is declared. *)
Definition as_int (v : StatValue) : option Z :=
  match v with stat_int n => Some n | _ => None end.

Definition as_float (v : StatValue) : option Q :=
  match v with
  | stat_float x => Some x
  | stat_int n => Some (inject_Z n)
  | _ => None
  end.

Definition as_dict (v : StatValue) : option (gmap str Z) :=
  match v with stat_dict d => Some d | _ => None end.

Definition as_optional_str (v : option StatValue) : option (option str) :=
  match v with
  | None => Some None
  | Some (stat_str s) => Some (Some s)
  | Some _ => None
  end.

Definition StatsResponse_validate (d : gmap str StatValue)
  : option StatsResponse.t :=
  total_todos ← d !! py "total_todos" ≫= as_int;
  by_status ← d !! py "by_status" ≫= as_dict;
  by_priority ← d !! py "by_priority" ≫= as_dict;
  completion_rate ← d !! py "completion_rate" ≫= as_float;
  highest_priority_count ← d !! py "highest_priority_count" ≫= as_int;
  message ← as_optional_str (d !! py "message");
  Some (StatsResponse.mk total_todos by_status by_priority completion_rate
          highest_priority_count message).

(** *** The router *)

Inductive Request :=
| GET_todos (skip limit : Z) (status_filter : option TodoStatus)
    (priority : option TodoPriority)
| GET_todo (todo_id : str)
| POST_todos (body : gmap str Json)
| PUT_todo (todo_id : str) (body : gmap str Json)
| PATCH_todo (todo_id : str) (body : gmap str Json)
| DELETE_todo (todo_id : str)
| GET_stats_summary
| PATCH_complete (todo_id : str)
| PATCH_start (todo_id : str)
| GET_search (q : str) (skip limit : Z).

Inductive Response :=
| todo_list (todos : list TodoResponse.t)
| one_todo (todo : TodoResponse.t)
| deletion (r : DeleteResult)
| statistics (r : StatsResponse.t)
| marked (r : str * TodoResponse.t)
| search_result (r : SearchResponse.t).

Definition validated {A : Type} (x : option A) : M A :=
  match x with
  | Some a => mret a
  | None => raise RequestValidationError
  end.

Definition route (req : Request) : M Response :=
  match req with
  | GET_todos skip limit status_filter priority =>
    todo_list <$> get_all_todos skip limit status_filter priority
  | GET_todo todo_id => one_todo <$> get_todo_by_id todo_id
  | POST_todos body =>
    todo ← validated (TodoCreate_validate body);
    one_todo <$> create_todo todo
  | PUT_todo todo_id body =>
    todo_update ← validated (TodoUpdate_validate body);
    one_todo <$> update_todo todo_id todo_update
  | PATCH_todo todo_id body =>
    todo_update ← validated (TodoUpdate_validate body);
    one_todo <$> partial_update_todo todo_id todo_update
  | DELETE_todo todo_id => deletion <$> delete_todo todo_id
  | GET_stats_summary =>
    d ← get_todo_stats;
    match StatsResponse_validate d with
    | Some r => mret (statistics r)
    | None => raise ResponseValidationError
    end
  | PATCH_complete todo_id => marked <$> mark_todo_complete todo_id
  | PATCH_start todo_id => marked <$> start_todo todo_id
  | GET_search q skip limit => search_result <$> search_todos q skip limit
  end.

End Router.

(** ** Statements of the specification *)

(** "Overwrite the stored field if the supplied value is non-null; fields
    absent or explicitly null are left untouched." *)
Definition overwrite {A : Type} (supplied : option (option A)) (stored : A)
  : A :=
  match supplied with
  | Some (Some v) => v
  | _ => stored
  end.

Definition overwrite_optional {A : Type} (supplied : option (option A))
    (stored : option A) : option A :=
  match supplied with
  | Some (Some v) => Some v
  | _ => stored
  end.

(** The update of the specification: the five fields of the partial update
    are overwritten as above, [updated_at] is refreshed, [id] and
    [created_at] stay. *)
Definition updated (u : TodoUpdate.t) (now : Timestamp) (old : Todo.t)
  : Todo.t :=
  Todo.mk (Todo.id old)
    (overwrite (TodoUpdate.title u) (Todo.title old))
    (overwrite_optional (TodoUpdate.description u) (Todo.description old))
    (overwrite (TodoUpdate.priority u) (Todo.priority old))
    (overwrite (TodoUpdate.status u) (Todo.status old))
    (overwrite_optional (TodoUpdate.due_date u) (Todo.due_date old))
    (Todo.created_at old) now.

(** [sub] occurs in [s] as a contiguous run of code points. *)
Definition substring (sub s : str) : Prop :=
  ∃ before after : str, s = before ++ sub ++ after.

(** An optional exact-match filter. *)
Definition passes {A : Type} `{EqDecision A} (wanted : option A) (x : A)
  : bool :=
  match wanted with
  | None => true
  | Some v => bool_decide (x = v)
  end.

(** The new dict that a create request stores in world [w]. *)
Definition created (clock : nat → Timestamp) (uuid4 : nat → str)
    (todo : TodoCreate.t) (w : World) : Todo.t :=
  Todo.mk (uuid4 (uuid4_calls w)) (TodoCreate.title todo)
    (TodoCreate.description todo) (TodoCreate.priority todo) PENDING
    (TodoCreate.due_date todo) (clock (now_calls w))
    (clock (S (now_calls w))).

Definition monotone (clock : nat → Timestamp) : Prop :=
  ∀ n, (clock n ≤ clock (S n))%Z.

(** Worlds the process can be in: the state after import, followed by any
    sequence of requests. *)
Inductive reachable (lower : str → str) (isspace : codepoint → bool)
    (clock : nat → Timestamp) (uuid4 : nat → str) : World → Prop :=
| reachable_startup : reachable lower isspace clock uuid4 (startup clock uuid4)
| reachable_request req w :
    reachable lower isspace clock uuid4 w →
    reachable lower isspace clock uuid4
      (route lower isspace clock uuid4 req w).2.

Definition ids (db : list Todo.t) : list str := Todo.id <$> db.

(** What a request can do to the world: nothing, append a created todo,
    replace a stored todo by one with the same [id] and [created_at] whose
    [updated_at] is the current reading of the clock, or remove a todo. *)
Inductive transition (clock : nat → Timestamp) (uuid4 : nat → str)
    (w : World) : World → Prop :=
| transition_none : transition clock uuid4 w w
| transition_create todo :
    transition clock uuid4 w
      (mkWorld (todos_db w ++ [created clock uuid4 todo w])
         (S (S (now_calls w))) (S (uuid4_calls w)))
| transition_update i old new :
    todos_db w !! i = Some old →
    Todo.id new = Todo.id old →
    Todo.created_at new = Todo.created_at old →
    Todo.updated_at new = clock (now_calls w) →
    transition clock uuid4 w
      (mkWorld (<[i := new]> (todos_db w)) (S (now_calls w))
         (uuid4_calls w))
| transition_delete i :
    transition clock uuid4 w
      (mkWorld (delete i (todos_db w)) (now_calls w) (uuid4_calls w)).

(** The timestamps of the store are in order and not ahead of the clock. *)
Definition timestamps_ordered (clock : nat → Timestamp) (w : World) : Prop :=
  Forall (λ todo,
            (Todo.created_at todo ≤ Todo.updated_at todo)%Z ∧
            (Todo.created_at todo ≤ clock (now_calls w))%Z)
    (todos_db w).

(** The ids of the store are distinct values already drawn from the
    generator. *)
Definition ids_drawn (uuid4 : nat → str) (w : World) : Prop :=
  NoDup (ids (todos_db w)) ∧
  ∀ todo_id, todo_id ∈ ids (todos_db w) →
    ∃ n, n < uuid4_calls w ∧ todo_id = uuid4 n.

(** ** A concrete runtime for evaluation

    Lower-casing and white space restricted to ASCII, a clock that advances
    by one at every reading, and identifiers [id-0], [id-1], ... *)

Definition ascii_lower (s : str) : str :=
  (λ c, if ((65 <=? c) && (c <=? 90))%N then (c + 32)%N else c) <$> s.

Definition ascii_isspace (c : codepoint) : bool :=
  bool_decide (c ∈ [9; 10; 11; 12; 13; 28; 29; 30; 31; 32]%N).

Definition tick (n : nat) : Timestamp := Z.of_nat n.

Definition serial (n : nat) : str := py "id-" ++ [(48 + N.of_nat n)%N].

Definition demo_route : Request → M Response :=
  route ascii_lower ascii_isspace tick serial.

Definition seeded : World := startup tick serial.

(** A create request whose body also carries a ["status"]. *)
Definition body_with_status : gmap str Json :=
  <[py "title" := JString (py "write tests")]>
    (<[py "status" := JString (py "completed")]> ∅).

(** The seeded store after one create: four todos, one of them completed. *)
Definition four_todos : World := (demo_route (POST_todos body_with_status) seeded).2.

(** The store after every seeded todo was deleted. *)
Definition emptied : World :=
  (demo_route (DELETE_todo (py "id-2"))
     (demo_route (DELETE_todo (py "id-1"))
        (demo_route (DELETE_todo (py "id-0")) seeded).2).2).2.

(** ** Further notions used by the properties of the handlers *)

(** The length limits that [TodoCreate] and [TodoUpdate] declare for a title
    and a description. *)
Definition within_limits (todo : Todo.t) : Prop :=
  1 ≤ length (Todo.title todo) ≤ 100 ∧
  match Todo.description todo with
  | Some description => length description ≤ 500
  | None => True
  end.

(** How many todos of a store have a given status or priority. *)
Definition count_status (s : TodoStatus) (db : list Todo.t) : nat :=
  length (filter (λ todo, Todo.status todo = s) db).

Definition count_priority (p : TodoPriority) (db : list Todo.t) : nat :=
  length (filter (λ todo, Todo.priority todo = p) db).

(** A todo with another status and another [updated_at], all else equal. *)
Definition marked_as (s : TodoStatus) (now : Timestamp) (todo : Todo.t)
  : Todo.t :=
  Todo.mk (Todo.id todo) (Todo.title todo) (Todo.description todo)
    (Todo.priority todo) s (Todo.due_date todo) (Todo.created_at todo) now.

(** The fields of the two request models. *)
Definition TodoCreate_fields : list str :=
  [py "title"; py "description"; py "priority"; py "due_date"].

Definition TodoUpdate_fields : list str :=
  [py "title"; py "description"; py "priority"; py "status"; py "due_date"].

(** A generator that returns the same value at every call, and the store it
    seeds: three todos with one id. *)
Definition stuck (n : nat) : str := py "same-id".

Definition seeded_stuck : World := startup tick stuck.

(** A body that sets the status only. *)
Definition status_body (value : str) : gmap str Json :=
  {[ py "status" := JString value ]}.

(** ** Proof support *)

Lemma run_bind {A B : Type} (m : M A) (k : A → M B) (w : World) :
  (m ≫= k) w =
  match m w with
  | (Return a, w') => k a w'
  | (Raise e, w') => (Raise e, w')
  end.
Proof. reflexivity. Qed.

Lemma run_fmap {A B : Type} (f : A → B) (m : M A) (w : World) :
  (f <$> m) w =
  match m w with
  | (Return a, w') => (Return (f a), w')
  | (Raise e, w') => (Raise e, w')
  end.
Proof. reflexivity. Qed.

Lemma run_ret {A : Type} (a : A) (w : World) :
  (mret a : M A) w = (Return a, w).
Proof. reflexivity. Qed.

Ltac run :=
  unfold route, validated, get_all_todos, get_todo_by_id, create_todo,
    update_todo, partial_update_todo, delete_todo, get_todo_stats,
    mark_todo_complete, start_todo, search_todos, update_todo_fields,
    safe_todo_update, ensure_todo_exists, find_todo_by_id;
  repeat (rewrite run_bind || rewrite run_fmap || rewrite run_ret);
  unfold generate_id, get_current_timestamp, raise, read_db, write_db;
  simpl.

Lemma world_eta (w : World) :
  mkWorld (todos_db w) (now_calls w) (uuid4_calls w) = w.
Proof. by destruct w. Qed.

(** *** Strings and slices *)

Lemma startswith_spec (s sub : str) :
  startswith s sub = true ↔ ∃ after, s = sub ++ after.
Proof.
  revert s. induction sub as [|p sub IH]; intros s; simpl.
  - split; [intros _; by exists s | done].
  - destruct s as [|c s]; simpl.
    + split; [done | by intros [? ?]].
    + rewrite andb_true_iff, N.eqb_eq, IH. split.
      * intros [-> [after ->]]. eauto.
      * intros [after [= -> ->]]. eauto.
Qed.

Lemma contains_spec (s sub : str) : contains s sub = true ↔ substring sub s.
Proof.
  unfold substring. induction s as [|c s IH].
  - simpl. rewrite orb_false_r, startswith_spec. split.
    + intros [after H]. exists [], after. done.
    + intros [before [after H]]. symmetry in H.
      apply app_eq_nil in H as [-> H]. eauto.
  - cbn [contains]. rewrite orb_true_iff, startswith_spec, IH. split.
    + intros [[after H] | [before [after H]]].
      * exists [], after. done.
      * exists (c :: before), after. by rewrite H.
    + intros [[|c' before] [after H]].
      * left. eauto.
      * right. injection H as -> ->. eauto.
Qed.

Lemma slice_nonneg {A : Type} (l : list A) (skip limit : Z) :
  (0 ≤ skip)%Z → (0 ≤ limit)%Z →
  slice l skip (skip + limit) = take (Z.to_nat limit) (drop (Z.to_nat skip) l).
Proof.
  intros Hs Hl. unfold slice, slice_index.
  destruct (Z.ltb_spec skip 0) as [|_]; [lia|].
  destruct (Z.ltb_spec (skip + limit) 0) as [|_]; [lia|].
  destruct (decide (Z.of_nat (length l) ≤ skip)%Z) as [Hge|Hlt].
  - rewrite !(drop_ge l) by lia. by rewrite !take_nil.
  - rewrite (Z.min_l skip) by lia.
    destruct (decide (skip + limit ≤ Z.of_nat (length l))%Z).
    + rewrite Z.min_l by lia. f_equal. lia.
    + rewrite Z.min_r by lia.
      rewrite !take_ge; [done | rewrite length_drop; lia ..].
Qed.

Section Strip.
Context (isspace : codepoint → bool).

Lemma lstrip_nil (s : str) :
  lstrip isspace s = [] ↔ forallb isspace s = true.
Proof.
  induction s as [|c s IH]; simpl; [done|].
  destruct (isspace c); simpl; [done|]. split; discriminate.
Qed.

Lemma lstrip_all_space (s : str) :
  forallb isspace (lstrip isspace s) = true → lstrip isspace s = [].
Proof.
  induction s as [|c s IH]; simpl; [done|].
  destruct (isspace c) eqn:Hc; [done|].
  simpl. rewrite Hc. discriminate.
Qed.

Lemma forallb_reverse (s : str) :
  forallb isspace (reverse s) = forallb isspace s.
Proof.
  apply eq_true_iff_eq. rewrite !forallb_forall.
  split; intros H c Hc; apply H; apply list_elem_of_In;
    apply list_elem_of_In in Hc; by apply elem_of_reverse.
Qed.

Lemma strip_nil (s : str) :
  strip isspace s = [] ↔ forallb isspace s = true.
Proof.
  unfold strip, rstrip. split.
  - intros H. apply lstrip_nil, lstrip_all_space.
    rewrite <- forallb_reverse. apply lstrip_nil.
    apply (f_equal reverse) in H. by rewrite reverse_involutive in H.
  - intros H. apply lstrip_nil in H. by rewrite H.
Qed.

(** The guard of [search_todos] is the test "empty or only white space". *)
Lemma blank_query (q : str) :
  bool_decide (q = []) || (length (strip isspace q) =? 0)
  = forallb isspace q.
Proof.
  apply eq_true_iff_eq.
  rewrite orb_true_iff, bool_decide_eq_true, Nat.eqb_eq, length_zero_iff_nil.
  rewrite strip_nil. split; [|eauto]. by intros [->|].
Qed.

End Strip.

(** *** Scans of the store *)

Lemma first_with_id_found (todo_id : str) (index : nat) (db : list Todo.t)
    (i : nat) (todo : Todo.t) :
  first_with_id todo_id index db = Some (i, todo) →
  ∃ before after,
    db = before ++ todo :: after ∧ i = index + length before ∧
    Todo.id todo = todo_id ∧ todo_id ∉ ids before.
Proof.
  revert index. induction db as [|d db IH]; intros index; simpl; [done|].
  case_decide as Hd.
  - intros [= <- <-]. exists [], db. simpl.
    split_and!; [done | lia | done | apply not_elem_of_nil].
  - intros H. apply IH in H as (before & after & -> & -> & Hid & Hnot).
    exists (d :: before), after. simpl. split_and!; [done | lia | done |].
    unfold ids in *. apply not_elem_of_cons. done.
Qed.

Lemma first_with_id_missing (todo_id : str) (index : nat)
    (db : list Todo.t) :
  first_with_id todo_id index db = None ↔ todo_id ∉ ids db.
Proof.
  unfold ids. revert index.
  induction db as [|d db IH]; intros index; simpl.
  - split; [intros _; apply not_elem_of_nil | done].
  - rewrite not_elem_of_cons. case_decide as Hd.
    + split; [done | by intros [? _]].
    + rewrite IH. split; [done | by intros [_ ?]].
Qed.

Lemma first_with_id_middle (todo_id : str) (index : nat)
    (before after : list Todo.t) (todo : Todo.t) :
  todo_id ∉ ids before → Todo.id todo = todo_id →
  first_with_id todo_id index (before ++ todo :: after)
  = Some (index + length before, todo).
Proof.
  unfold ids. intros Hnot Hid. revert index.
  induction before as [|d before IH]; intros index; simpl.
  - rewrite decide_True by done. do 2 f_equal. lia.
  - rewrite fmap_cons in Hnot. apply not_elem_of_cons in Hnot as [Hd Hnot].
    rewrite decide_False by done. rewrite IH by done. do 2 f_equal. lia.
Qed.

(** With unique ids, a todo of the store is the one the scan finds. *)
Lemma first_with_id_unique (db : list Todo.t) (todo : Todo.t) :
  NoDup (ids db) → todo ∈ db →
  ∃ before after,
    db = before ++ todo :: after ∧
    (Todo.id todo ∉ ids before) ∧ (Todo.id todo ∉ ids after) ∧
    first_with_id (Todo.id todo) 0 db = Some (length before, todo).
Proof.
  intros Hnodup Hin.
  apply list_elem_of_split in Hin as (before & after & ->).
  unfold ids in Hnodup. rewrite fmap_app, fmap_cons in Hnodup.
  apply NoDup_app in Hnodup as (_ & Hbefore & Hrest).
  apply NoDup_cons in Hrest as [Hafter _].
  assert (Todo.id todo ∉ ids before) as Hnot.
  { intros Hin. apply (Hbefore _ Hin). left. }
  exists before, after. split_and!; [done .. |].
  by rewrite first_with_id_middle.
Qed.

(** The search loop collects the matching todos in store order. *)
Lemma search_loop (lower : str → str) (search_term : str)
    (results db : list Todo.t) :
  foldl (search_step lower search_term) results db
  = results ++ List.filter (search_match lower search_term) db.
Proof.
  revert results. induction db as [|todo db IH]; intros results; simpl.
  - by rewrite app_nil_r.
  - rewrite IH. unfold search_step.
    destruct (search_match lower search_term todo); [|done].
    by rewrite <- app_assoc.
Qed.

(** *** The counting loop of the statistics *)

Lemma str_of_status_is_no_value (s s' : TodoStatus) :
  TodoStatus_str s ≠ TodoStatus_value s'.
Proof. by destruct s, s'. Qed.

Lemma str_of_priority_is_no_value (p p' : TodoPriority) :
  TodoPriority_str p ≠ TodoPriority_value p'.
Proof. by destruct p, p'. Qed.

Lemma count_loop_keeps_value_keys (db : list Todo.t)
    (acc : gmap str Z * gmap str Z) (s : TodoStatus) (p : TodoPriority) :
  (foldl count_todo acc db).1 !! TodoStatus_value s
  = acc.1 !! TodoStatus_value s ∧
  (foldl count_todo acc db).2 !! TodoPriority_value p
  = acc.2 !! TodoPriority_value p.
Proof.
  revert acc. induction db as [|todo db IH]; intros acc; simpl; [done|].
  destruct (IH (count_todo acc todo)) as [-> ->]. unfold count_todo. simpl.
  rewrite !lookup_insert_ne;
    auto using str_of_status_is_no_value, str_of_priority_is_no_value.
Qed.

(** The entries under the enum values are never incremented. *)
Lemma stats_counts_value_keys (db : list Todo.t) (s : TodoStatus)
    (p : TodoPriority) :
  (stats_counts db).1 !! TodoStatus_value s = Some 0%Z ∧
  (stats_counts db).2 !! TodoPriority_value p = Some 0%Z.
Proof.
  unfold stats_counts.
  destruct (count_loop_keeps_value_keys db
    (list_to_map ((λ status, (TodoStatus_value status, 0%Z))
                    <$> TodoStatus_members),
     list_to_map ((λ priority, (TodoPriority_value priority, 0%Z))
                    <$> TodoPriority_members)) s p) as [-> ->].
  simpl. split; [by destruct s | by destruct p].
Qed.

(** ** Statistics *)

(** On every non-empty store the summary passes validation, reports a zero
    count under every enum value, a completion rate of zero and no todo of
    high priority: the loop counts under [str(member)], the summary reads
    under [member.value]. *)
Lemma stats_on_nonempty_store (lower : str → str)
    (isspace : codepoint → bool) (clock : nat → Timestamp)
    (uuid4 : nat → str) (w : World) :
  todos_db w ≠ [] →
  ∃ r, route lower isspace clock uuid4 GET_stats_summary w
       = (Return (statistics r), w) ∧
    StatsResponse.total_todos r = Z.of_nat (length (todos_db w)) ∧
    (∀ s, StatsResponse.by_status r !! TodoStatus_value s = Some 0%Z) ∧
    (∀ p, StatsResponse.by_priority r !! TodoPriority_value p = Some 0%Z) ∧
    StatsResponse.completion_rate r = 0%Q ∧
    StatsResponse.highest_priority_count r = 0%Z.
Proof.
  intros Hdb. run.
  destruct (Z.eqb_spec (Z.of_nat (length (todos_db w))) 0) as [H0|_].
  { destruct (todos_db w); [done | simpl in H0; lia]. }
  rewrite run_ret.
  destruct (stats_counts_value_keys (todos_db w) COMPLETED HIGH)
    as [Hs Hp].
  eexists. split.
  - unfold StatsResponse_validate. simpl. reflexivity.
  - simpl. split_and!; [done | | | |].
    + intros s. apply (stats_counts_value_keys (todos_db w) s HIGH).
    + intros p. apply (stats_counts_value_keys (todos_db w) COMPLETED p).
    + simpl in Hs. rewrite Hs. simpl.
      unfold round2, round_half_even. simpl.
      unfold Qdiv, Qmult, Qinv. simpl. reflexivity.
    + simpl in Hp. rewrite Hp. done.
Qed.

(** C1 (the code departs from the claim).  On an empty store
    [get_todo_stats] returns a dict with [total_todos] 0, empty breakdowns,
    [completion_rate] 0 and the message, but without the key
    [highest_priority_count] that [StatsResponse] requires: validation of
    the response fails and the route raises instead of answering.  The
    store [emptied], reached by deleting the three seeded todos, is such a
    state. *)
Theorem stats_on_empty_store_is_rejected (lower : str → str)
    (isspace : codepoint → bool) (clock : nat → Timestamp)
    (uuid4 : nat → str) (n k : nat) :
  (∃ d, get_todo_stats (mkWorld [] n k) = (Return d, mkWorld [] n k) ∧
     d !! py "total_todos" = Some (stat_int 0) ∧
     d !! py "by_status" = Some (stat_dict ∅) ∧
     d !! py "by_priority" = Some (stat_dict ∅) ∧
     d !! py "completion_rate" = Some (stat_int 0) ∧
     d !! py "message" = Some (stat_str (py "暂无待办事项")) ∧
     d !! py "highest_priority_count" = None ∧
     StatsResponse_validate d = None) ∧
  route lower isspace clock uuid4 GET_stats_summary (mkWorld [] n k)
  = (Raise ResponseValidationError, mkWorld [] n k) ∧
  reachable ascii_lower ascii_isspace tick serial emptied ∧
  todos_db emptied = [] ∧
  demo_route GET_stats_summary emptied
  = (Raise ResponseValidationError, emptied).
Proof.
  split_and!.
  - eexists. split; [reflexivity|]. split_and!; reflexivity.
  - reflexivity.
  - unfold emptied, demo_route. do 3 apply reachable_request.
    apply reachable_startup.
  - reflexivity.
  - reflexivity.
Qed.

(** C5 (the code departs from the claim).  On the store [four_todos], four
    todos of which exactly one is completed and one has priority high, the
    summary reports a completion rate of 0, not 25, and no todo of high
    priority: the entries under the enum values are present but stay at
    zero, the todos are counted under [TodoStatus.COMPLETED] and the
    like. *)
Theorem stats_rate_on_four_todos :
  reachable ascii_lower ascii_isspace tick serial four_todos ∧
  length (todos_db four_todos) = 4 ∧
  length (filter (λ todo, Todo.status todo = COMPLETED)
            (todos_db four_todos)) = 1 ∧
  length (filter (λ todo, Todo.priority todo = HIGH)
            (todos_db four_todos)) = 1 ∧
  ∃ r, demo_route GET_stats_summary four_todos
       = (Return (statistics r), four_todos) ∧
    StatsResponse.completion_rate r = 0%Q ∧
    ¬ (StatsResponse.completion_rate r == 25)%Q ∧
    StatsResponse.highest_priority_count r = 0%Z ∧
    StatsResponse.by_status r !! py "completed" = Some 0%Z ∧
    StatsResponse.by_status r !! py "TodoStatus.COMPLETED" = Some 1%Z ∧
    StatsResponse.by_priority r !! py "high" = Some 0%Z ∧
    StatsResponse.by_priority r !! py "TodoPriority.HIGH" = Some 1%Z.
Proof.
  split_and!.
  - unfold four_todos, demo_route. apply reachable_request.
    apply reachable_startup.
  - reflexivity.
  - reflexivity.
  - reflexivity.
  - eexists. split; [reflexivity|]. split_and!; try reflexivity.
    simpl. intros H. discriminate H.
Qed.

(** ** Running the helpers *)

Lemma ensure_todo_exists_run (todo_id : str) (w : World) :
  ensure_todo_exists todo_id w =
  match first_with_id todo_id 0 (todos_db w) with
  | Some todo => (Return todo, w)
  | None => (Raise (HTTPException 404 (not_found_detail todo_id)), w)
  end.
Proof. run. by destruct (first_with_id todo_id 0 (todos_db w)). Qed.

Lemma safe_todo_update_run (clock : nat → Timestamp) (todo : nat * Todo.t)
    (update_data : list Item) (w : World) :
  safe_todo_update clock todo update_data w =
  let d := Todo.set_updated_at (clock (now_calls w))
             (foldl set_item todo.2 update_data) in
  (Return (todo.1, d),
   mkWorld (<[todo.1 := d]> (todos_db w)) (S (now_calls w)) (uuid4_calls w)).
Proof. reflexivity. Qed.

(** The loop of [safe_todo_update] over a dumped [TodoUpdate] is the update
    of the specification. *)
Lemma safe_update_is_updated (u : TodoUpdate.t) (now : Timestamp)
    (old : Todo.t) :
  Todo.set_updated_at now (foldl set_item old (model_dump_exclude_unset u))
  = updated u now old.
Proof.
  destruct u as [[[?|]|] [[?|]|] [[?|]|] [[?|]|] [[?|]|]]; reflexivity.
Qed.

Lemma set_items_keep_identity (update_data : list Item) (todo : Todo.t) :
  Todo.id (foldl set_item todo update_data) = Todo.id todo ∧
  Todo.created_at (foldl set_item todo update_data) = Todo.created_at todo.
Proof.
  revert todo. induction update_data as [|it l IH]; intros todo; [done|].
  simpl. destruct (IH (set_item todo it)) as [-> ->].
  by destruct it as [[?|]|[?|]|[?|]|[?|]|[?|]].
Qed.

(** ** Create *)

Lemma status_key_is_ignored (body : gmap str Json) (v : Json) :
  TodoCreate_validate (<[py "status" := v]> body) = TodoCreate_validate body.
Proof.
  unfold TodoCreate_validate, field_or.
  by rewrite !lookup_insert_ne by done.
Qed.

(** C2 (as amended).  For every body that validates as a [TodoCreate], the
    create request answers with the todo it stores: the id is the next value
    of the generator, the status is pending whatever ["status"] the body
    carries, [created_at] and [updated_at] are the next two readings of the
    clock in that order (so [created_at <= updated_at] under a monotone
    clock, with equality exactly when the clock did not advance in
    between), and the todo is appended at the end of the store. *)
Theorem create_todo_spec (lower : str → str) (isspace : codepoint → bool)
    (clock : nat → Timestamp) (uuid4 : nat → str) (body : gmap str Json)
    (todo : TodoCreate.t) (w : World) :
  TodoCreate_validate body = Some todo →
  route lower isspace clock uuid4 (POST_todos body) w
  = (Return (one_todo (TodoResponse_of (created clock uuid4 todo w))),
     mkWorld (todos_db w ++ [created clock uuid4 todo w])
       (S (S (now_calls w))) (S (uuid4_calls w))) ∧
  Todo.id (created clock uuid4 todo w) = uuid4 (uuid4_calls w) ∧
  Todo.title (created clock uuid4 todo w) = TodoCreate.title todo ∧
  Todo.description (created clock uuid4 todo w)
  = TodoCreate.description todo ∧
  Todo.priority (created clock uuid4 todo w) = TodoCreate.priority todo ∧
  Todo.due_date (created clock uuid4 todo w) = TodoCreate.due_date todo ∧
  Todo.status (created clock uuid4 todo w) = PENDING ∧
  Todo.created_at (created clock uuid4 todo w) = clock (now_calls w) ∧
  Todo.updated_at (created clock uuid4 todo w) = clock (S (now_calls w)) ∧
  (monotone clock →
   (Todo.created_at (created clock uuid4 todo w)
    ≤ Todo.updated_at (created clock uuid4 todo w))%Z) ∧
  (∀ v, TodoCreate_validate (<[py "status" := v]> body) = Some todo).
Proof.
  intros Hbody. split_and!; try reflexivity.
  - run. rewrite Hbody. reflexivity.
  - intros Hclock. apply Hclock.
  - intros v. by rewrite status_key_is_ignored.
Qed.

Lemma create_todo_spec_witness :
  TodoCreate_validate body_with_status
  = Some (TodoCreate.mk (py "write tests") None MEDIUM None) ∧
  (demo_route (POST_todos body_with_status) seeded).1
  = Return (one_todo (TodoResponse_of
      (created tick serial
         (TodoCreate.mk (py "write tests") None MEDIUM None) seeded))).
Proof.
  split; [reflexivity|].
  destruct (create_todo_spec ascii_lower ascii_isspace tick serial
              body_with_status
              (TodoCreate.mk (py "write tests") None MEDIUM None)
              seeded eq_refl) as [H _].
  unfold demo_route. rewrite H. reflexivity.
Defined.

(** C2 (the claim as stated fails).  The handler reads the clock once for
    [created_at] and once more for [updated_at]: with a clock that advances
    between the two readings the created todo has different timestamps. *)
Lemma create_reads_the_clock_twice :
  ∃ r, (demo_route (POST_todos body_with_status) seeded).1
       = Return (one_todo r) ∧
    TodoResponse.status r = PENDING ∧
    TodoResponse.created_at r = 6%Z ∧
    TodoResponse.updated_at r = 7%Z ∧
    TodoResponse.created_at r ≠ TodoResponse.updated_at r.
Proof. eexists. split; [reflexivity|]. by split_and!. Qed.

(** ** Update and partial update *)

Lemma update_todo_run (clock : nat → Timestamp) (todo_id : str)
    (u : TodoUpdate.t) (w : World) :
  update_todo clock todo_id u w =
  match first_with_id todo_id 0 (todos_db w) with
  | Some (i, old) =>
    (Return (TodoResponse_of (updated u (clock (now_calls w)) old)),
     mkWorld (<[i := updated u (clock (now_calls w)) old]> (todos_db w))
       (S (now_calls w)) (uuid4_calls w))
  | None => (Raise (HTTPException 404 (not_found_detail todo_id)), w)
  end.
Proof.
  unfold update_todo. rewrite run_bind, ensure_todo_exists_run.
  destruct (first_with_id todo_id 0 (todos_db w)) as [[i old]|]; [|done].
  rewrite run_bind, safe_todo_update_run. simpl.
  by rewrite run_ret, safe_update_is_updated.
Qed.

(** C3.  PUT and PATCH run the same function on the store, as handlers and
    as routes.  When no todo has the id, both raise the 404 exception and
    leave the world as it is.  Otherwise the first todo with the id, at
    position [i], is replaced by its update: each of the five fields takes
    the supplied value when one is supplied and is not null and keeps the
    stored value otherwise, [updated_at] becomes the current reading of the
    clock (also when no field is supplied), [id] and [created_at] stay; the
    response is the updated todo. *)
Theorem put_and_patch_update (lower : str → str)
    (isspace : codepoint → bool) (clock : nat → Timestamp)
    (uuid4 : nat → str) (todo_id : str) (u : TodoUpdate.t)
    (body : gmap str Json) (w : World) :
  update_todo clock todo_id u w = partial_update_todo clock todo_id u w ∧
  route lower isspace clock uuid4 (PUT_todo todo_id body) w
  = route lower isspace clock uuid4 (PATCH_todo todo_id body) w ∧
  if decide (todo_id ∈ ids (todos_db w)) then
    ∃ i old,
      todos_db w !! i = Some old ∧ Todo.id old = todo_id ∧
      (todo_id ∉ ids (take i (todos_db w))) ∧
      update_todo clock todo_id u w
      = (Return (TodoResponse_of (updated u (clock (now_calls w)) old)),
         mkWorld (<[i := updated u (clock (now_calls w)) old]> (todos_db w))
           (S (now_calls w)) (uuid4_calls w)) ∧
      updated u (clock (now_calls w)) old
      = Todo.mk (Todo.id old)
          (overwrite (TodoUpdate.title u) (Todo.title old))
          (overwrite_optional (TodoUpdate.description u)
             (Todo.description old))
          (overwrite (TodoUpdate.priority u) (Todo.priority old))
          (overwrite (TodoUpdate.status u) (Todo.status old))
          (overwrite_optional (TodoUpdate.due_date u) (Todo.due_date old))
          (Todo.created_at old) (clock (now_calls w))
  else
    update_todo clock todo_id u w
    = (Raise (HTTPException 404 (not_found_detail todo_id)), w).
Proof.
  split_and!; [reflexivity .. |].
  rewrite update_todo_run. case_decide as Hin.
  - destruct (first_with_id todo_id 0 (todos_db w)) as [[i old]|] eqn:Hscan.
    + apply first_with_id_found in Hscan
        as (before & after & Hdb & -> & Hid & Hnot).
      exists (length before), old. rewrite Hdb. split_and!.
      * by apply list_lookup_middle.
      * done.
      * by rewrite take_app_length.
      * done.
      * done.
    + by apply (first_with_id_missing todo_id 0) in Hscan.
  - apply (first_with_id_missing todo_id 0) in Hin. by rewrite Hin.
Qed.

(** An update with no field still refreshes [updated_at], and nothing
    else. *)
Lemma empty_update_refreshes (now : Timestamp) (old : Todo.t) :
  updated (TodoUpdate.mk None None None None None) now old
  = Todo.set_updated_at now old.
Proof. reflexivity. Qed.

(** An explicit [null] overwrites nothing. *)
Lemma null_update_refreshes (now : Timestamp) (old : Todo.t) :
  updated (TodoUpdate.mk (Some None) (Some None) (Some None) (Some None)
             (Some None)) now old
  = Todo.set_updated_at now old.
Proof. reflexivity. Qed.

(** ** Search *)

Lemma search_match_spec (lower : str → str) (search_term : str)
    (todo : Todo.t) :
  search_match lower search_term todo = true ↔
  substring search_term (lower (Todo.title todo)) ∨
  ∃ description,
    Todo.description todo = Some description ∧
    substring search_term (lower description).
Proof.
  unfold search_match. rewrite orb_true_iff, contains_spec.
  destruct (Todo.description todo) as [d|].
  - rewrite contains_spec. split.
    + intros [?|?]; [by left | right; eauto].
    + intros [?|(d' & [= <-] & ?)]; [by left | by right].
  - split.
    + intros [?|?]; [by left | done].
    + intros [?|(d' & ? & _)]; [by left | done].
Qed.

(** What a search does for arbitrary [skip] and [limit], negative ones
    included: the page is the Python slice of the matches. *)
Lemma search_todos_run (lower : str → str) (isspace : codepoint → bool)
    (q : str) (skip limit : Z) (w : World) :
  search_todos lower isspace q skip limit w
  = (if forallb isspace q
     then (Raise (HTTPException 400 (py "搜索关键词不能为空")), w)
     else
       (Return
          (SearchResponse.mk
             (TodoResponse_of <$>
                slice (List.filter
                         (search_match lower (strip isspace (lower q)))
                         (todos_db w)) skip (skip + limit))
             (length (List.filter
                        (search_match lower (strip isspace (lower q)))
                        (todos_db w)))
             (strip isspace (lower q))), w)).
Proof.
  unfold search_todos. rewrite blank_query.
  destruct (forallb isspace q); [done|].
  rewrite run_bind. simpl. by rewrite run_ret, search_loop.
Qed.

(** C4.  For non-negative [skip] and [limit], a search raises the 400
    exception exactly when every code point of the query is white space
    (the empty query included), which is when the trimmed query is empty,
    and leaves the world as it is.  Otherwise the search term is the
    lowered and trimmed query, a todo matches iff the term is a substring
    of its lowered title or of its lowered description when it has one, the
    matches are the matching todos in store order, [total_found] is their
    number and the page is the matches from [skip] up to [skip + limit]. *)
Theorem search_todos_spec (lower : str → str) (isspace : codepoint → bool)
    (q : str) (skip limit : Z) (w : World) :
  (0 ≤ skip)%Z → (0 ≤ limit)%Z →
  search_todos lower isspace q skip limit w
  = (if forallb isspace q
     then (Raise (HTTPException 400 (py "搜索关键词不能为空")), w)
     else
       (Return
          (SearchResponse.mk
             (TodoResponse_of <$>
                take (Z.to_nat limit) (drop (Z.to_nat skip)
                  (List.filter
                     (search_match lower (strip isspace (lower q)))
                     (todos_db w))))
             (length (List.filter
                        (search_match lower (strip isspace (lower q)))
                        (todos_db w)))
             (strip isspace (lower q))), w)) ∧
  (forallb isspace q = true ↔ strip isspace q = []) ∧
  (∀ todo,
     search_match lower (strip isspace (lower q)) todo = true ↔
     substring (strip isspace (lower q)) (lower (Todo.title todo)) ∨
     ∃ description,
       Todo.description todo = Some description ∧
       substring (strip isspace (lower q)) (lower description)).
Proof.
  intros Hskip Hlimit. split_and!.
  - rewrite search_todos_run. destruct (forallb isspace q); [done|].
    by rewrite slice_nonneg.
  - symmetry. apply strip_nil.
  - intros todo. apply search_match_spec.
Qed.

Lemma search_todos_spec_witness :
  (0 ≤ 0)%Z ∧ (0 ≤ 10)%Z ∧
  ∃ r, search_todos ascii_lower ascii_isspace (py " FASTapi ") 0 10 seeded
       = (Return r, seeded) ∧
    SearchResponse.total_found r = 1 ∧
    SearchResponse.search_term r = py "fastapi" ∧
    TodoResponse.id <$> SearchResponse.results r = [py "id-0"].
Proof.
  split; [lia|]. split; [lia|].
  destruct (search_todos_spec ascii_lower ascii_isspace (py " FASTapi ")
              0 10 seeded) as [H _]; [lia | lia |].
  eexists. split; [exact H|]. by split_and!.
Defined.

(** ** List *)

Lemma filter_passes {A : Type} `{EqDecision A} (field : Todo.t → A)
    (wanted : A) (db : list Todo.t) :
  filter (λ todo, Some (field todo) = Some wanted) db
  = List.filter (λ todo, passes (Some wanted) (field todo)) db.
Proof.
  induction db as [|todo db IH]; [done|].
  rewrite filter_cons. simpl. rewrite IH.
  case_decide as Heq; case_bool_decide as Heq'; naive_solver.
Qed.

Lemma filter_passes_all {A : Type} `{EqDecision A} (field : Todo.t → A)
    (db : list Todo.t) :
  List.filter (λ todo, passes None (field todo)) db = db.
Proof. induction db as [|todo db IH]; simpl; by f_equal. Qed.

(** What the list request does for arbitrary [skip] and [limit]. *)
Lemma get_all_todos_run (skip limit : Z) (status_filter : option TodoStatus)
    (priority : option TodoPriority) (w : World) :
  get_all_todos skip limit status_filter priority w
  = (Return
       (TodoResponse_of <$>
          slice
            (List.filter (λ todo, passes priority (Todo.priority todo))
               (List.filter
                  (λ todo, passes status_filter (Todo.status todo))
                  (todos_db w))) skip (skip + limit)), w).
Proof.
  unfold get_all_todos. rewrite run_bind. simpl. rewrite run_ret.
  do 3 f_equal.
  destruct status_filter as [s|], priority as [p|].
  - replace (truthy TodoStatus_value (Some s)) with true by by destruct s.
    replace (truthy TodoPriority_value (Some p)) with true by by destruct p.
    by rewrite !filter_passes.
  - replace (truthy TodoStatus_value (Some s)) with true by by destruct s.
    simpl. by rewrite filter_passes, (filter_passes_all Todo.priority).
  - replace (truthy TodoPriority_value (Some p)) with true by by destruct p.
    simpl. by rewrite filter_passes, (filter_passes_all Todo.status).
  - simpl.
    by rewrite (filter_passes_all Todo.status),
      (filter_passes_all Todo.priority).
Qed.

(** C6.  For non-negative [skip] and [limit], the list request returns, as
    responses and without touching the world, the todos that pass the
    status filter and the priority filter (each an exact match when given),
    in store order, from position [skip] up to [skip + limit].  On the
    seeded store, [skip] 0 and [limit] 10 without filters return the three
    seeded todos in store order. *)
Theorem get_all_todos_spec (skip limit : Z)
    (status_filter : option TodoStatus) (priority : option TodoPriority)
    (w : World) :
  (0 ≤ skip)%Z → (0 ≤ limit)%Z →
  get_all_todos skip limit status_filter priority w
  = (Return
       (TodoResponse_of <$>
          take (Z.to_nat limit) (drop (Z.to_nat skip)
            (List.filter (λ todo, passes priority (Todo.priority todo))
               (List.filter
                  (λ todo, passes status_filter (Todo.status todo))
                  (todos_db w))))), w) ∧
  ∀ (clock : nat → Timestamp) (uuid4 : nat → str),
    length (todos_db (startup clock uuid4)) = 3 ∧
    get_all_todos 0 10 None None (startup clock uuid4)
    = (Return (TodoResponse_of <$> todos_db (startup clock uuid4)),
       startup clock uuid4).
Proof.
  intros Hskip Hlimit. split; [|by intros clock uuid4].
  by rewrite get_all_todos_run, slice_nonneg.
Qed.

Lemma get_all_todos_spec_witness :
  (0 ≤ 1)%Z ∧ (0 ≤ 2)%Z ∧
  ∃ page, get_all_todos 1 2 (Some PENDING) None four_todos
          = (Return page, four_todos) ∧
    TodoResponse.id <$> page = [py "id-3"].
Proof.
  split; [lia|]. split; [lia|].
  destruct (get_all_todos_spec 1 2 (Some PENDING) None four_todos)
    as [H _]; [lia | lia |].
  eexists. split; [exact H|]. reflexivity.
Defined.

(** ** Delete *)

Lemma delete_todo_run (todo_id : str) (w : World) :
  delete_todo todo_id w =
  match first_with_id todo_id 0 (todos_db w) with
  | Some (index, todo) =>
    (Return (mkDeleteResult (py "待办事项删除成功") todo
               (length (delete index (todos_db w)))),
     mkWorld (delete index (todos_db w)) (now_calls w) (uuid4_calls w))
  | None => (Raise (HTTPException 404 (not_found_detail todo_id)), w)
  end.
Proof.
  unfold delete_todo. rewrite run_bind. simpl.
  by destruct (first_with_id todo_id 0 (todos_db w)) as [[index todo]|].
Qed.

Lemma get_todo_by_id_run (todo_id : str) (w : World) :
  get_todo_by_id todo_id w =
  match first_with_id todo_id 0 (todos_db w) with
  | Some (_, todo) => (Return (TodoResponse_of todo), w)
  | None => (Raise (HTTPException 404 (not_found_detail todo_id)), w)
  end.
Proof.
  unfold get_todo_by_id. rewrite run_bind, ensure_todo_exists_run.
  by destruct (first_with_id todo_id 0 (todos_db w)) as [[index todo]|].
Qed.

(** A successful delete of a store with unique ids, in full. *)
Lemma delete_todo_found (todo_id : str) (w : World) :
  NoDup (ids (todos_db w)) → todo_id ∈ ids (todos_db w) →
  ∃ before todo after,
    todos_db w = before ++ todo :: after ∧ Todo.id todo = todo_id ∧
    (todo_id ∉ ids (before ++ after)) ∧
    delete_todo todo_id w
    = (Return (mkDeleteResult (py "待办事项删除成功") todo
                 (length (before ++ after))),
       mkWorld (before ++ after) (now_calls w) (uuid4_calls w)).
Proof.
  intros Hnodup Hin. unfold ids in Hin.
  apply list_elem_of_fmap in Hin as (todo & -> & Hin).
  destruct (first_with_id_unique _ _ Hnodup Hin)
    as (before & after & Hdb & Hbefore & Hafter & Hscan).
  exists before, todo, after. split_and!; [done | done | |].
  - unfold ids in *. rewrite fmap_app. by apply not_elem_of_app.
  - rewrite delete_todo_run, Hscan, Hdb. by rewrite delete_middle.
Qed.

(** C7.  Delete raises the 404 exception exactly when no todo of the store
    has the id.  When one has it and ids are unique, delete returns that
    todo together with the size of the store after the removal, the id no
    longer occurs in the store, and a following lookup of the same id
    raises the 404 exception. *)
Theorem delete_todo_spec (todo_id : str) (w : World) :
  NoDup (ids (todos_db w)) →
  ((delete_todo todo_id w).1
   = Raise (HTTPException 404 (not_found_detail todo_id))
   ↔ todo_id ∉ ids (todos_db w)) ∧
  (todo_id ∈ ids (todos_db w) →
   ∃ todo,
     todo ∈ todos_db w ∧ Todo.id todo = todo_id ∧
     (delete_todo todo_id w).1
     = Return (mkDeleteResult (py "待办事项删除成功") todo
                 (length (todos_db (delete_todo todo_id w).2))) ∧
     (todo_id ∉ ids (todos_db (delete_todo todo_id w).2)) ∧
     get_todo_by_id todo_id (delete_todo todo_id w).2
     = (Raise (HTTPException 404 (not_found_detail todo_id)),
        (delete_todo todo_id w).2)).
Proof.
  intros Hnodup. split.
  - rewrite delete_todo_run.
    rewrite <- (first_with_id_missing todo_id 0).
    by destruct (first_with_id todo_id 0 (todos_db w)) as [[index todo]|].
  - intros Hin.
    destruct (delete_todo_found todo_id w Hnodup Hin)
      as (before & todo & after & Hdb & Hid & Hgone & Hrun).
    exists todo. rewrite Hrun. simpl. split_and!; [| done .. |].
    + rewrite Hdb. apply elem_of_app. right. left.
    + rewrite get_todo_by_id_run. simpl.
      apply (first_with_id_missing todo_id 0) in Hgone. by rewrite Hgone.
Qed.

Lemma delete_todo_spec_witness :
  NoDup (ids (todos_db seeded)) ∧
  py "id-1" ∈ ids (todos_db seeded) ∧
  ∃ todo,
    (delete_todo (py "id-1") seeded).1
    = Return (mkDeleteResult (py "待办事项删除成功") todo 2) ∧
    get_todo_by_id (py "id-1") (delete_todo (py "id-1") seeded).2
    = (Raise (HTTPException 404 (not_found_detail (py "id-1"))),
       (delete_todo (py "id-1") seeded).2).
Proof.
  assert (NoDup (ids (todos_db seeded))) as Hnodup.
  { apply (bool_decide_unpack _). reflexivity. }
  assert (py "id-1" ∈ ids (todos_db seeded)) as Hin.
  { apply (bool_decide_unpack _). reflexivity. }
  split; [exact Hnodup|]. split; [exact Hin|].
  destruct (delete_todo_spec (py "id-1") seeded Hnodup) as [_ H].
  destruct (H Hin) as (todo & _ & _ & Hres & _ & Hget).
  exists todo. split; [exact Hres | exact Hget].
Defined.

(** C10.  With unique ids, deleting the id of a todo of the store removes
    that todo and nothing else: the store splits around the todo, the new
    store is what came before followed by what came after, unchanged and in
    the same order, the removed todo is returned, and [remaining_count] is
    the former size minus one. *)
Theorem delete_todo_frame (todo_id : str) (w : World) (todo : Todo.t) :
  NoDup (ids (todos_db w)) → todo ∈ todos_db w → Todo.id todo = todo_id →
  ∃ before after,
    todos_db w = before ++ todo :: after ∧
    delete_todo todo_id w
    = (Return (mkDeleteResult (py "待办事项删除成功") todo
                 (length (todos_db w) - 1)),
       mkWorld (before ++ after) (now_calls w) (uuid4_calls w)).
Proof.
  intros Hnodup Hin <-.
  destruct (first_with_id_unique _ _ Hnodup Hin)
    as (before & after & Hdb & _ & _ & Hscan).
  exists before, after. split; [done|].
  rewrite delete_todo_run, Hscan, Hdb, delete_middle.
  do 3 f_equal. rewrite !length_app. simpl. lia.
Qed.

Lemma delete_todo_frame_witness :
  NoDup (ids (todos_db seeded)) ∧
  ∃ todo,
    todos_db seeded !! 1 = Some todo ∧ todo ∈ todos_db seeded ∧
    Todo.id todo = py "id-1" ∧
    ∃ before after,
      todos_db seeded = before ++ todo :: after ∧
      delete_todo (py "id-1") seeded
      = (Return (mkDeleteResult (py "待办事项删除成功") todo
                   (length (todos_db seeded) - 1)),
         mkWorld (before ++ after) (now_calls seeded) (uuid4_calls seeded)).
Proof.
  assert (NoDup (ids (todos_db seeded))) as Hnodup.
  { apply (bool_decide_unpack _). reflexivity. }
  split; [exact Hnodup|].
  assert (∀ x y z : Todo.t, y ∈ [x; y; z]) as Hmid.
  { intros x y z. right. left. }
  eexists. split; [reflexivity|]. split; [apply Hmid|].
  split; [reflexivity|].
  exact (delete_todo_frame (py "id-1") seeded _ Hnodup (Hmid _ _ _) eq_refl).
Defined.

(** ** Requests as transitions of the world *)

Lemma mark_run (clock : nat → Timestamp) (todo_id : str) (w : World) :
  mark_todo_complete clock todo_id w =
  match first_with_id todo_id 0 (todos_db w) with
  | Some (i, old) =>
    let new := Todo.set_updated_at (clock (now_calls w))
                 (Todo.set_status COMPLETED old) in
    (Return (complete_message todo_id, TodoResponse_of new),
     mkWorld (<[i := new]> (todos_db w)) (S (now_calls w)) (uuid4_calls w))
  | None => (Raise (HTTPException 404 (not_found_detail todo_id)), w)
  end ∧
  start_todo clock todo_id w =
  match first_with_id todo_id 0 (todos_db w) with
  | Some (i, old) =>
    let new := Todo.set_updated_at (clock (now_calls w))
                 (Todo.set_status IN_PROGRESS old) in
    (Return (start_message todo_id, TodoResponse_of new),
     mkWorld (<[i := new]> (todos_db w)) (S (now_calls w)) (uuid4_calls w))
  | None => (Raise (HTTPException 404 (not_found_detail todo_id)), w)
  end.
Proof.
  unfold mark_todo_complete, start_todo.
  rewrite !run_bind, ensure_todo_exists_run.
  by destruct (first_with_id todo_id 0 (todos_db w)) as [[i old]|].
Qed.

Lemma first_with_id_lookup (todo_id : str) (db : list Todo.t) (i : nat)
    (todo : Todo.t) :
  first_with_id todo_id 0 db = Some (i, todo) → db !! i = Some todo.
Proof.
  intros H. apply first_with_id_found in H
    as (before & after & -> & -> & _ & _).
  by apply list_lookup_middle.
Qed.

Section Transitions.
Context (lower : str → str) (isspace : codepoint → bool).
Context (clock : nat → Timestamp) (uuid4 : nat → str).

(** A request that raises leaves the whole world as it was. *)
Lemma route_raise (req : Request) (w : World) (e : Exception) :
  (route lower isspace clock uuid4 req w).1 = Raise e →
  (route lower isspace clock uuid4 req w).2 = w.
Proof.
  destruct req as [skip limit sf pf | todo_id | body | todo_id body
                  | todo_id body | todo_id | | todo_id | todo_id
                  | q skip limit]; unfold route.
  - done.
  - rewrite run_fmap, get_todo_by_id_run.
    by destruct (first_with_id todo_id 0 (todos_db w)) as [[i old]|].
  - rewrite run_bind. by destruct (TodoCreate_validate body).
  - rewrite run_bind. destruct (TodoUpdate_validate body) as [u|]; [|done].
    simpl. rewrite run_fmap, update_todo_run.
    by destruct (first_with_id todo_id 0 (todos_db w)) as [[i old]|].
  - rewrite run_bind. destruct (TodoUpdate_validate body) as [u|]; [|done].
    simpl. change (partial_update_todo clock todo_id u)
      with (update_todo clock todo_id u).
    rewrite run_fmap, update_todo_run.
    by destruct (first_with_id todo_id 0 (todos_db w)) as [[i old]|].
  - rewrite run_fmap, delete_todo_run.
    by destruct (first_with_id todo_id 0 (todos_db w)) as [[i old]|].
  - rewrite run_bind. unfold get_todo_stats. rewrite run_bind. simpl.
    destruct (Z.of_nat (length (todos_db w)) =? 0)%Z; rewrite run_ret;
      match goal with |- context [StatsResponse_validate ?d] =>
        by destruct (StatsResponse_validate d) end.
  - rewrite run_fmap, (proj1 (mark_run clock todo_id w)).
    by destruct (first_with_id todo_id 0 (todos_db w)) as [[i old]|].
  - rewrite run_fmap, (proj2 (mark_run clock todo_id w)).
    by destruct (first_with_id todo_id 0 (todos_db w)) as [[i old]|].
  - rewrite run_fmap. unfold search_todos.
    by destruct (bool_decide (q = [])
                 || (length (strip isspace q) =? 0)).
Qed.

Lemma route_transition (req : Request) (w : World) :
  transition clock uuid4 w (route lower isspace clock uuid4 req w).2.
Proof.
  destruct (route lower isspace clock uuid4 req w) as [[r|e] w'] eqn:Hrun.
  2: { pose proof (route_raise req w e) as H. rewrite Hrun in H.
       simpl in *. rewrite H by done. constructor. }
  simpl. revert Hrun.
  destruct req as [skip limit sf pf | todo_id | body | todo_id body
                  | todo_id body | todo_id | | todo_id | todo_id
                  | q skip limit]; unfold route.
  - intros [= _ <-]. constructor.
  - rewrite run_fmap, get_todo_by_id_run.
    destruct (first_with_id todo_id 0 (todos_db w)) as [[i old]|];
      intros [= _ <-]; constructor.
  - rewrite run_bind. destruct (TodoCreate_validate body) as [todo|];
      [|done].
    intros [= _ <-]. apply transition_create.
  - rewrite run_bind. destruct (TodoUpdate_validate body) as [u|]; [|done].
    simpl. rewrite run_fmap, update_todo_run.
    destruct (first_with_id todo_id 0 (todos_db w)) as [[i old]|] eqn:Hscan;
      [|done].
    intros [= _ <-]. apply first_with_id_lookup in Hscan.
    by eapply transition_update.
  - rewrite run_bind. destruct (TodoUpdate_validate body) as [u|]; [|done].
    simpl. change (partial_update_todo clock todo_id u)
      with (update_todo clock todo_id u).
    rewrite run_fmap, update_todo_run.
    destruct (first_with_id todo_id 0 (todos_db w)) as [[i old]|] eqn:Hscan;
      [|done].
    intros [= _ <-]. apply first_with_id_lookup in Hscan.
    by eapply transition_update.
  - rewrite run_fmap, delete_todo_run.
    destruct (first_with_id todo_id 0 (todos_db w)) as [[i old]|]; [|done].
    intros [= _ <-]. apply transition_delete.
  - rewrite run_bind. unfold get_todo_stats. rewrite run_bind. simpl.
    destruct (Z.of_nat (length (todos_db w)) =? 0)%Z; rewrite run_ret;
      match goal with |- context [StatsResponse_validate ?d] =>
        destruct (StatsResponse_validate d) end;
      intros [= _ <-]; constructor.
  - rewrite run_fmap, (proj1 (mark_run clock todo_id w)).
    destruct (first_with_id todo_id 0 (todos_db w)) as [[i old]|] eqn:Hscan;
      [|done].
    intros [= _ <-]. apply first_with_id_lookup in Hscan.
    by eapply transition_update.
  - rewrite run_fmap, (proj2 (mark_run clock todo_id w)).
    destruct (first_with_id todo_id 0 (todos_db w)) as [[i old]|] eqn:Hscan;
      [|done].
    intros [= _ <-]. apply first_with_id_lookup in Hscan.
    by eapply transition_update.
  - rewrite run_fmap. unfold search_todos.
    destruct (bool_decide (q = []) || (length (strip isspace q) =? 0));
      [done|].
    intros [= _ <-]. constructor.
Qed.

End Transitions.

(** ** Invariants of the reachable worlds *)

Lemma monotone_le (clock : nat → Timestamp) (n m : nat) :
  monotone clock → n ≤ m → (clock n ≤ clock m)%Z.
Proof.
  intros Hclock Hle. induction Hle as [|m _ IH]; [lia|].
  specialize (Hclock m). lia.
Qed.

Lemma startup_timestamps_ordered (clock : nat → Timestamp)
    (uuid4 : nat → str) :
  monotone clock → timestamps_ordered clock (startup clock uuid4).
Proof.
  intros Hclock. unfold timestamps_ordered. simpl.
  repeat apply Forall_cons_2; [.. | apply Forall_nil_2]; simpl;
    split; apply monotone_le; (done || lia).
Qed.

Lemma transition_timestamps_ordered (clock : nat → Timestamp)
    (uuid4 : nat → str) (w w' : World) :
  monotone clock → transition clock uuid4 w w' →
  timestamps_ordered clock w → timestamps_ordered clock w'.
Proof.
  unfold timestamps_ordered.
  intros Hclock [| todo | i old new Hold Hid Hcreated Hupdated | i] Hw;
    simpl.
  - done.
  - apply Forall_app. split.
    + eapply Forall_impl; [exact Hw|]. simpl. intros d [? ?]. split; [done|].
      pose proof (monotone_le clock (now_calls w) (S (S (now_calls w)))
                    Hclock).
      lia.
    + apply Forall_singleton. simpl. split; apply monotone_le; (done || lia).
  - pose proof (Hclock (now_calls w)) as Hnext.
    apply Forall_insert.
    + eapply Forall_impl; [exact Hw|]. simpl. intros d [? ?]. lia.
    + apply list_elem_of_lookup_2 in Hold.
      rewrite Forall_forall in Hw. destruct (Hw old Hold) as [_ Hnow].
      rewrite Hcreated, Hupdated. lia.
  - by apply Forall_delete.
Qed.

Lemma reachable_timestamps_ordered (lower : str → str)
    (isspace : codepoint → bool) (clock : nat → Timestamp)
    (uuid4 : nat → str) (w : World) :
  monotone clock → reachable lower isspace clock uuid4 w →
  timestamps_ordered clock w.
Proof.
  intros Hclock Hw. induction Hw as [|req w Hw IH].
  - by apply startup_timestamps_ordered.
  - eapply transition_timestamps_ordered; [done | | done].
    apply route_transition.
Qed.

(** C8.  Under a monotone clock, in every world reachable from the seeded
    start by any sequence of requests, every todo of the store has
    [created_at <= updated_at]. *)
Theorem created_before_updated (lower : str → str)
    (isspace : codepoint → bool) (clock : nat → Timestamp)
    (uuid4 : nat → str) (w : World) :
  monotone clock → reachable lower isspace clock uuid4 w →
  Forall (λ todo, (Todo.created_at todo ≤ Todo.updated_at todo)%Z)
    (todos_db w).
Proof.
  intros Hclock Hw.
  eapply Forall_impl;
    [exact (reachable_timestamps_ordered _ _ _ _ _ Hclock Hw)|].
  simpl. by intros todo [? _].
Qed.

Lemma created_before_updated_witness :
  monotone tick ∧
  reachable ascii_lower ascii_isspace tick serial four_todos ∧
  Forall (λ todo, (Todo.created_at todo ≤ Todo.updated_at todo)%Z)
    (todos_db four_todos).
Proof.
  assert (monotone tick) as Hclock.
  { intros n. unfold tick. lia. }
  assert (reachable ascii_lower ascii_isspace tick serial four_todos)
    as Hreach.
  { unfold four_todos, demo_route. apply reachable_request.
    apply reachable_startup. }
  split; [exact Hclock|]. split; [exact Hreach|].
  exact (created_before_updated ascii_lower ascii_isspace tick serial
           four_todos Hclock Hreach).
Defined.

(** With a generator that never repeats a value, the ids of a reachable
    store are distinct. *)
Lemma transition_ids_drawn (clock : nat → Timestamp) (uuid4 : nat → str)
    (w w' : World) :
  Inj (=) (=) uuid4 → transition clock uuid4 w w' →
  ids_drawn uuid4 w → ids_drawn uuid4 w'.
Proof.
  unfold ids_drawn, ids.
  intros Hinj [| todo | i old new Hold Hid Hcreated Hupdated | i]
    [Hnodup Hdrawn]; simpl.
  - done.
  - rewrite fmap_app. simpl. split.
    + apply NoDup_app. split_and!; [done | | apply NoDup_singleton].
      intros x Hx Hnew. apply list_elem_of_singleton in Hnew as ->.
      destruct (Hdrawn _ Hx) as (n & Hn & Heq). apply Hinj in Heq. lia.
    + intros x Hx. apply elem_of_app in Hx as [Hx|Hx].
      * destruct (Hdrawn _ Hx) as (n & Hn & Heq). exists n. split; [lia|done].
      * apply list_elem_of_singleton in Hx as ->. eauto.
  - rewrite list_fmap_insert, Hid.
    rewrite list_insert_id; [done|].
    by rewrite list_lookup_fmap, Hold.
  - rewrite list_fmap_delete. split.
    + eapply sublist_NoDup; [done | apply sublist_delete].
    + intros x Hx. apply Hdrawn. by eapply list_elem_of_delete_inv.
Qed.

Lemma reachable_ids_unique (lower : str → str)
    (isspace : codepoint → bool) (clock : nat → Timestamp)
    (uuid4 : nat → str) (w : World) :
  Inj (=) (=) uuid4 → reachable lower isspace clock uuid4 w →
  NoDup (ids (todos_db w)).
Proof.
  intros Hinj Hw. cut (ids_drawn uuid4 w); [by intros [? _]|].
  induction Hw as [|req w Hw IH].
  - unfold ids_drawn, ids. simpl. split.
    + repeat (apply NoDup_cons; split); [| | | apply NoDup_nil_2].
      * intros H. apply elem_of_cons in H as [H|H]; [apply Hinj in H; lia|].
        apply list_elem_of_singleton in H. apply Hinj in H. lia.
      * intros H. apply list_elem_of_singleton in H. apply Hinj in H. lia.
      * apply not_elem_of_nil.
    + intros x Hx.
      repeat (apply elem_of_cons in Hx as [->|Hx]; [eexists; split; [|done]; lia|]).
      by apply elem_of_nil in Hx.
  - eapply transition_ids_drawn; [done | | done]. apply route_transition.
Qed.

(** ** Failure leaves the store alone *)

(** C9.  Whenever a request raises, whatever the exception (the 404 of a
    missing id, the validation error of a create or update body, the 400 of
    a blank search query), the store is exactly what it was before the
    request. *)
Theorem failed_request_keeps_store (lower : str → str)
    (isspace : codepoint → bool) (clock : nat → Timestamp)
    (uuid4 : nat → str) (req : Request) (w w' : World) (e : Exception) :
  route lower isspace clock uuid4 req w = (Raise e, w') →
  todos_db w' = todos_db w.
Proof.
  intros Hrun.
  pose proof (route_raise lower isspace clock uuid4 req w e) as H.
  rewrite Hrun in H. simpl in H. by rewrite H.
Qed.

Lemma failed_request_keeps_store_witness :
  demo_route (PUT_todo (py "id-9") body_with_status) four_todos
  = (Raise (HTTPException 404 (not_found_detail (py "id-9"))), four_todos) ∧
  todos_db four_todos = todos_db four_todos.
Proof.
  assert (demo_route (PUT_todo (py "id-9") body_with_status) four_todos
          = (Raise (HTTPException 404 (not_found_detail (py "id-9"))),
             four_todos)) as Hrun by reflexivity.
  split; [exact Hrun|].
  exact (failed_request_keeps_store ascii_lower ascii_isspace tick serial
           _ _ _ _ Hrun).
Defined.

(** ** Lookup *)

Lemma first_with_id_app_l (todo_id : str) (index : nat)
    (db rest : list Todo.t) (found : nat * Todo.t) :
  first_with_id todo_id index db = Some found →
  first_with_id todo_id index (db ++ rest) = Some found.
Proof.
  revert index. induction db as [|d db IH]; intros index; simpl; [done|].
  case_decide; [done | apply IH].
Qed.

Lemma create_todo_run (clock : nat → Timestamp) (uuid4 : nat → str)
    (todo : TodoCreate.t) (w : World) :
  create_todo clock uuid4 todo w
  = (Return (TodoResponse_of (created clock uuid4 todo w)),
     mkWorld (todos_db w ++ [created clock uuid4 todo w])
       (S (S (now_calls w))) (S (uuid4_calls w))).
Proof. reflexivity. Qed.

(** X1.  In a store with unique ids, looking up the id of a stored todo
    answers with that todo and leaves the world as it is; a lookup raises
    the 404 exception exactly for the ids that no stored todo has. *)
Theorem get_todo_by_id_spec (w : World) (todo : Todo.t) (todo_id : str) :
  NoDup (ids (todos_db w)) → todo ∈ todos_db w →
  get_todo_by_id (Todo.id todo) w = (Return (TodoResponse_of todo), w) ∧
  (get_todo_by_id todo_id w
   = (Raise (HTTPException 404 (not_found_detail todo_id)), w)
   ↔ todo_id ∉ ids (todos_db w)).
Proof.
  intros Hnodup Hin. split.
  - destruct (first_with_id_unique _ _ Hnodup Hin)
      as (before & after & _ & _ & _ & Hscan).
    by rewrite get_todo_by_id_run, Hscan.
  - rewrite get_todo_by_id_run, <- (first_with_id_missing todo_id 0).
    by destruct (first_with_id todo_id 0 (todos_db w)) as [[i found]|].
Qed.

Lemma get_todo_by_id_spec_witness :
  NoDup (ids (todos_db seeded)) ∧
  ∃ todo,
    todos_db seeded !! 2 = Some todo ∧ todo ∈ todos_db seeded ∧
    get_todo_by_id (Todo.id todo) seeded
    = (Return (TodoResponse_of todo), seeded).
Proof.
  assert (NoDup (ids (todos_db seeded))) as Hnodup.
  { apply (bool_decide_unpack _). reflexivity. }
  assert (∀ x y z : Todo.t, z ∈ [x; y; z]) as Hlast.
  { intros x y z. right. right. left. }
  split; [exact Hnodup|].
  eexists. split; [reflexivity|]. split; [apply Hlast|].
  exact (proj1 (get_todo_by_id_spec seeded _ [] Hnodup (Hlast _ _ _))).
Defined.

(** X2.  When the generated id is not yet in the store, looking it up right
    after the create answers with the todo that the create returned. *)
Theorem create_then_get (clock : nat → Timestamp) (uuid4 : nat → str)
    (todo : TodoCreate.t) (w : World) :
  (uuid4 (uuid4_calls w) ∉ ids (todos_db w)) →
  get_todo_by_id (uuid4 (uuid4_calls w)) (create_todo clock uuid4 todo w).2
  = ((create_todo clock uuid4 todo w).1, (create_todo clock uuid4 todo w).2).
Proof.
  intros Hfresh. rewrite create_todo_run, get_todo_by_id_run. simpl.
  by rewrite first_with_id_middle.
Qed.

Lemma create_then_get_witness :
  (serial (uuid4_calls seeded) ∉ ids (todos_db seeded)) ∧
  get_todo_by_id (py "id-3")
    (create_todo tick serial
       (TodoCreate.mk (py "write tests") None MEDIUM None) seeded).2
  = ((create_todo tick serial
        (TodoCreate.mk (py "write tests") None MEDIUM None) seeded).1,
     (create_todo tick serial
        (TodoCreate.mk (py "write tests") None MEDIUM None) seeded).2).
Proof.
  assert (serial (uuid4_calls seeded) ∉ ids (todos_db seeded)) as Hfresh.
  { apply (bool_decide_unpack _). reflexivity. }
  split; [exact Hfresh|].
  exact (create_then_get tick serial
           (TodoCreate.mk (py "write tests") None MEDIUM None) seeded Hfresh).
Defined.

(** X3.  The create handler does not compare the generated id with the
    store: when the id is already taken, the todo is stored all the same,
    and a lookup of the id still answers with the older todo, the first one
    in store order. *)
Theorem create_with_taken_id (clock : nat → Timestamp) (uuid4 : nat → str)
    (todo : TodoCreate.t) (w : World) :
  uuid4 (uuid4_calls w) ∈ ids (todos_db w) →
  ∃ i old,
    todos_db w !! i = Some old ∧
    Todo.id old = uuid4 (uuid4_calls w) ∧
    todos_db (create_todo clock uuid4 todo w).2
    = todos_db w ++ [created clock uuid4 todo w] ∧
    get_todo_by_id (uuid4 (uuid4_calls w)) (create_todo clock uuid4 todo w).2
    = (Return (TodoResponse_of old), (create_todo clock uuid4 todo w).2).
Proof.
  intros Htaken.
  destruct (first_with_id (uuid4 (uuid4_calls w)) 0 (todos_db w))
    as [[i old]|] eqn:Hscan.
  - exists i, old. split_and!.
    + by eapply first_with_id_lookup.
    + by apply first_with_id_found in Hscan as (? & ? & _ & _ & ? & _).
    + done.
    + rewrite create_todo_run, get_todo_by_id_run. simpl.
      by rewrite (first_with_id_app_l _ _ _ _ _ Hscan).
  - by apply (first_with_id_missing _ 0) in Hscan.
Qed.

Lemma create_with_taken_id_witness :
  stuck (uuid4_calls seeded_stuck) ∈ ids (todos_db seeded_stuck) ∧
  ∃ i old,
    todos_db seeded_stuck !! i = Some old ∧
    Todo.id old = stuck (uuid4_calls seeded_stuck) ∧
    todos_db
      (create_todo tick stuck
         (TodoCreate.mk (py "write tests") None MEDIUM None) seeded_stuck).2
    = todos_db seeded_stuck
      ++ [created tick stuck
            (TodoCreate.mk (py "write tests") None MEDIUM None)
            seeded_stuck] ∧
    get_todo_by_id (stuck (uuid4_calls seeded_stuck))
      (create_todo tick stuck
         (TodoCreate.mk (py "write tests") None MEDIUM None) seeded_stuck).2
    = (Return (TodoResponse_of old),
       (create_todo tick stuck
          (TodoCreate.mk (py "write tests") None MEDIUM None)
          seeded_stuck).2).
Proof.
  assert (stuck (uuid4_calls seeded_stuck) ∈ ids (todos_db seeded_stuck))
    as Htaken.
  { apply (bool_decide_unpack _). reflexivity. }
  split; [exact Htaken|].
  exact (create_with_taken_id tick stuck
           (TodoCreate.mk (py "write tests") None MEDIUM None)
           seeded_stuck Htaken).
Defined.

(** ** Marking a todo *)

Lemma insert_middle (before after : list Todo.t) (old new : Todo.t) :
  <[length before := new]> (before ++ old :: after) = before ++ new :: after.
Proof.
  replace (length before) with (length before + 0) by lia.
  by rewrite insert_app_r.
Qed.

Lemma first_with_id_insert (todo_id : str) (db : list Todo.t) (i : nat)
    (old new : Todo.t) :
  first_with_id todo_id 0 db = Some (i, old) → Todo.id new = todo_id →
  first_with_id todo_id 0 (<[i := new]> db) = Some (i, new).
Proof.
  intros Hscan Hid.
  apply first_with_id_found in Hscan
    as (before & after & -> & -> & _ & Hnot).
  simpl. rewrite insert_middle. by rewrite first_with_id_middle.
Qed.

(** X4.  In a store with unique ids, marking a stored todo as complete (or
    as started) replaces it in place by the same todo with status completed
    (in progress), whatever its status was, and with [updated_at] set to the
    current reading of the clock; the todos before and after it are
    untouched, and the answer carries the new todo. *)
Theorem mark_todo_spec (clock : nat → Timestamp) (w : World)
    (todo : Todo.t) :
  NoDup (ids (todos_db w)) → todo ∈ todos_db w →
  ∃ before after,
    todos_db w = before ++ todo :: after ∧
    mark_todo_complete clock (Todo.id todo) w
    = (Return (complete_message (Todo.id todo),
               TodoResponse_of
                 (marked_as COMPLETED (clock (now_calls w)) todo)),
       mkWorld
         (before ++ marked_as COMPLETED (clock (now_calls w)) todo :: after)
         (S (now_calls w)) (uuid4_calls w)) ∧
    start_todo clock (Todo.id todo) w
    = (Return (start_message (Todo.id todo),
               TodoResponse_of
                 (marked_as IN_PROGRESS (clock (now_calls w)) todo)),
       mkWorld
         (before ++ marked_as IN_PROGRESS (clock (now_calls w)) todo
            :: after)
         (S (now_calls w)) (uuid4_calls w)).
Proof.
  intros Hnodup Hin.
  destruct (first_with_id_unique _ _ Hnodup Hin)
    as (before & after & Hdb & _ & _ & Hscan).
  exists before, after. split; [done|].
  destruct (mark_run clock (Todo.id todo) w) as [-> ->].
  rewrite Hscan, Hdb. simpl. by rewrite !insert_middle.
Qed.

Lemma mark_todo_spec_witness :
  NoDup (ids (todos_db seeded)) ∧
  ∃ todo,
    todos_db seeded !! 0 = Some todo ∧ todo ∈ todos_db seeded ∧
    Todo.status todo = COMPLETED ∧
    ∃ before after,
      todos_db seeded = before ++ todo :: after ∧
      mark_todo_complete tick (Todo.id todo) seeded
      = (Return (complete_message (Todo.id todo),
                 TodoResponse_of
                   (marked_as COMPLETED (tick (now_calls seeded)) todo)),
         mkWorld
           (before ++ marked_as COMPLETED (tick (now_calls seeded)) todo
              :: after)
           (S (now_calls seeded)) (uuid4_calls seeded)) ∧
      start_todo tick (Todo.id todo) seeded
      = (Return (start_message (Todo.id todo),
                 TodoResponse_of
                   (marked_as IN_PROGRESS (tick (now_calls seeded)) todo)),
         mkWorld
           (before ++ marked_as IN_PROGRESS (tick (now_calls seeded)) todo
              :: after)
           (S (now_calls seeded)) (uuid4_calls seeded)).
Proof.
  assert (NoDup (ids (todos_db seeded))) as Hnodup.
  { apply (bool_decide_unpack _). reflexivity. }
  assert (∀ x y z : Todo.t, x ∈ [x; y; z]) as Hfirst.
  { intros x y z. left. }
  split; [exact Hnodup|].
  eexists. split; [reflexivity|]. split; [apply Hfirst|].
  split; [reflexivity|].
  exact (mark_todo_spec tick seeded _ Hnodup (Hfirst _ _ _)).
Defined.

(** X5.  Marking the same id as complete twice: after the first call the
    todo has status completed and the current reading of the clock as
    [updated_at]; the second call changes nothing but [updated_at], which
    becomes the next reading. *)
Theorem complete_twice (clock : nat → Timestamp) (todo_id : str)
    (w : World) :
  todo_id ∈ ids (todos_db w) →
  ∃ i old,
    todos_db w !! i = Some old ∧ Todo.id old = todo_id ∧
    todos_db (mark_todo_complete clock todo_id w).2
    = <[i := marked_as COMPLETED (clock (now_calls w)) old]> (todos_db w) ∧
    todos_db
      (mark_todo_complete clock todo_id
         (mark_todo_complete clock todo_id w).2).2
    = <[i := marked_as COMPLETED (clock (S (now_calls w))) old]>
        (todos_db w).
Proof.
  intros Hin.
  destruct (first_with_id todo_id 0 (todos_db w)) as [[i old]|] eqn:Hscan.
  2: { by apply (first_with_id_missing _ 0) in Hscan. }
  exists i, old.
  pose proof (first_with_id_lookup _ _ _ _ Hscan) as Hlookup.
  pose proof Hscan as Hfound.
  apply first_with_id_found in Hfound as (? & ? & _ & _ & Hid & _).
  assert (todos_db (mark_todo_complete clock todo_id w).2
          = <[i := marked_as COMPLETED (clock (now_calls w)) old]>
              (todos_db w) ∧
          now_calls (mark_todo_complete clock todo_id w).2
          = S (now_calls w)) as [Hdb Hnow].
  { by rewrite (proj1 (mark_run clock todo_id w)), Hscan. }
  split_and!; [done | done | done |].
  rewrite (proj1 (mark_run clock todo_id (mark_todo_complete clock todo_id w).2)).
  rewrite Hdb, Hnow.
  rewrite (first_with_id_insert todo_id _ i old
             (marked_as COMPLETED (clock (now_calls w)) old) Hscan Hid).
  simpl. by rewrite list_insert_insert_eq.
Qed.

Lemma complete_twice_witness :
  py "id-2" ∈ ids (todos_db seeded) ∧
  ∃ i old,
    todos_db seeded !! i = Some old ∧ Todo.id old = py "id-2" ∧
    todos_db (mark_todo_complete tick (py "id-2") seeded).2
    = <[i := marked_as COMPLETED (tick (now_calls seeded)) old]>
        (todos_db seeded) ∧
    todos_db
      (mark_todo_complete tick (py "id-2")
         (mark_todo_complete tick (py "id-2") seeded).2).2
    = <[i := marked_as COMPLETED (tick (S (now_calls seeded))) old]>
        (todos_db seeded).
Proof.
  assert (py "id-2" ∈ ids (todos_db seeded)) as Hin.
  { apply (bool_decide_unpack _). reflexivity. }
  split; [exact Hin|].
  exact (complete_twice tick (py "id-2") seeded Hin).
Defined.

(** X6.  The complete route has the same effect on the world as a PUT
    whose body sets [status] to ["completed"], and the start route the same
    as a PUT with ["in_progress"]; they answer with the same todo, wrapped
    in a message by the mark routes, and raise the same exception. *)
Theorem mark_is_status_update (lower : str → str)
    (isspace : codepoint → bool) (clock : nat → Timestamp)
    (uuid4 : nat → str) (todo_id : str) (w : World) :
  (route lower isspace clock uuid4
     (PUT_todo todo_id (status_body (py "completed"))) w).2
  = (route lower isspace clock uuid4 (PATCH_complete todo_id) w).2 ∧
  (route lower isspace clock uuid4
     (PUT_todo todo_id (status_body (py "in_progress"))) w).2
  = (route lower isspace clock uuid4 (PATCH_start todo_id) w).2 ∧
  (route lower isspace clock uuid4
     (PUT_todo todo_id (status_body (py "completed"))) w).1
  = match (route lower isspace clock uuid4 (PATCH_complete todo_id) w).1 with
    | Return (marked (_, todo)) => Return (one_todo todo)
    | other => other
    end ∧
  (route lower isspace clock uuid4
     (PUT_todo todo_id (status_body (py "in_progress"))) w).1
  = match (route lower isspace clock uuid4 (PATCH_start todo_id) w).1 with
    | Return (marked (_, todo)) => Return (one_todo todo)
    | other => other
    end.
Proof.
  unfold route. rewrite !run_bind, !run_fmap.
  replace (TodoUpdate_validate (status_body (py "completed")))
    with (Some (TodoUpdate.mk None None None (Some (Some COMPLETED)) None))
    by reflexivity.
  replace (TodoUpdate_validate (status_body (py "in_progress")))
    with (Some (TodoUpdate.mk None None None (Some (Some IN_PROGRESS)) None))
    by reflexivity.
  simpl. rewrite !run_fmap, !update_todo_run.
  destruct (mark_run clock todo_id w) as [-> ->].
  by destruct (first_with_id todo_id 0 (todos_db w)) as [[i old]|].
Qed.

(** ** What a request leaves alone *)

Lemma ids_insert_same (db : list Todo.t) (i : nat) (old new : Todo.t) :
  db !! i = Some old → Todo.id new = Todo.id old →
  ids (<[i := new]> db) = ids db.
Proof.
  intros Hold Hid. unfold ids. rewrite list_fmap_insert, Hid.
  apply list_insert_id. by rewrite list_lookup_fmap, Hold.
Qed.

(** X7.  The four reading routes (list, lookup, statistics, search) never
    change the world, whether they answer or raise. *)
Theorem reading_routes_keep_world (lower : str → str)
    (isspace : codepoint → bool) (clock : nat → Timestamp)
    (uuid4 : nat → str) (w : World) :
  (∀ skip limit status_filter priority,
     (route lower isspace clock uuid4
        (GET_todos skip limit status_filter priority) w).2 = w) ∧
  (∀ todo_id,
     (route lower isspace clock uuid4 (GET_todo todo_id) w).2 = w) ∧
  (route lower isspace clock uuid4 GET_stats_summary w).2 = w ∧
  (∀ q skip limit,
     (route lower isspace clock uuid4 (GET_search q skip limit) w).2 = w).
Proof.
  split_and!.
  - done.
  - intros todo_id. unfold route. rewrite run_fmap, get_todo_by_id_run.
    by destruct (first_with_id todo_id 0 (todos_db w)) as [[i old]|].
  - unfold route, get_todo_stats. rewrite !run_bind. simpl.
    destruct (Z.of_nat (length (todos_db w)) =? 0)%Z; rewrite run_ret;
      match goal with |- context [StatsResponse_validate ?d] =>
        by destruct (StatsResponse_validate d) end.
  - intros q skip limit. unfold route.
    rewrite run_fmap, search_todos_run.
    by destruct (forallb isspace q).
Qed.

(** X8.  No update changes which ids are stored, nor their order: after a
    PUT, a PATCH, a complete or a start request, with any id and any body,
    the list of ids of the store is what it was. *)
Theorem updates_keep_ids (lower : str → str) (isspace : codepoint → bool)
    (clock : nat → Timestamp) (uuid4 : nat → str) (todo_id : str)
    (body : gmap str Json) (w : World) :
  ids (todos_db (route lower isspace clock uuid4 (PUT_todo todo_id body) w).2)
  = ids (todos_db w) ∧
  ids (todos_db
         (route lower isspace clock uuid4 (PATCH_todo todo_id body) w).2)
  = ids (todos_db w) ∧
  ids (todos_db
         (route lower isspace clock uuid4 (PATCH_complete todo_id) w).2)
  = ids (todos_db w) ∧
  ids (todos_db (route lower isspace clock uuid4 (PATCH_start todo_id) w).2)
  = ids (todos_db w).
Proof.
  assert (∀ u, ids (todos_db (update_todo clock todo_id u w).2)
               = ids (todos_db w)) as Hupdate.
  { intros u. rewrite update_todo_run.
    destruct (first_with_id todo_id 0 (todos_db w)) as [[i old]|] eqn:Hscan;
      [|done].
    simpl. eapply ids_insert_same; [by eapply first_with_id_lookup | done]. }
  assert (∀ u, ((one_todo <$> update_todo clock todo_id u) w).2
               = (update_todo clock todo_id u w).2) as Hfmap.
  { intros u. rewrite run_fmap.
    by destruct (update_todo clock todo_id u w) as [[r|e] w']. }
  split_and!.
  - unfold route. rewrite run_bind.
    destruct (TodoUpdate_validate body) as [u|]; [|done].
    simpl. rewrite Hfmap. apply Hupdate.
  - unfold route. rewrite run_bind.
    destruct (TodoUpdate_validate body) as [u|]; [|done].
    simpl. change (partial_update_todo clock todo_id u)
      with (update_todo clock todo_id u).
    rewrite Hfmap. apply Hupdate.
  - unfold route. rewrite run_fmap, (proj1 (mark_run clock todo_id w)).
    destruct (first_with_id todo_id 0 (todos_db w)) as [[i old]|] eqn:Hscan;
      [|done].
    simpl. eapply ids_insert_same; [by eapply first_with_id_lookup | done].
  - unfold route. rewrite run_fmap, (proj2 (mark_run clock todo_id w)).
    destruct (first_with_id todo_id 0 (todos_db w)) as [[i old]|] eqn:Hscan;
      [|done].
    simpl. eapply ids_insert_same; [by eapply first_with_id_lookup | done].
Qed.

(** ** Ids of the reachable stores *)





(** ** The length limits of the request models *)

Lemma validate_str_limits (min_length max_length : nat) (v : Json)
    (s : str) :
  validate_str min_length max_length v = Some s →
  v = JString s ∧ min_length ≤ length s ≤ max_length.
Proof.
  destruct v as [|s'|]; simpl; [done | | done].
  destruct (Nat.leb_spec min_length (length s'));
    destruct (Nat.leb_spec (length s') max_length); simpl; try done.
  intros [= <-]. split; [done | lia].
Qed.

Lemma validate_optional_str_limits (max_length : nat) (v : Json)
    (d : option str) :
  validate_optional (validate_str 0 max_length) v = Some d →
  match d with Some s => length s ≤ max_length | None => True end.
Proof.
  destruct v as [|s'|]; simpl.
  - by intros [= <-].
  - destruct (length s' <=? max_length) eqn:Hle; simpl; [|done].
    intros [= <-]. by apply Nat.leb_le.
  - done.
Qed.

Lemma TodoCreate_validate_limits (body : gmap str Json)
    (todo : TodoCreate.t) :
  TodoCreate_validate body = Some todo →
  1 ≤ length (TodoCreate.title todo) ≤ 100 ∧
  match TodoCreate.description todo with
  | Some description => length description ≤ 500
  | None => True
  end.
Proof.
  unfold TodoCreate_validate, field_or. intros H.
  apply bind_Some in H as (t & Ht & H).
  apply bind_Some in Ht as (vt & _ & Ht).
  apply validate_str_limits in Ht as [_ Ht].
  apply bind_Some in H as (d & Hd & H).
  apply bind_Some in H as (p & _ & H).
  apply bind_Some in H as (due & _ & H).
  injection H as <-. simpl. split; [done|].
  destruct (body !! py "description") as [vd|].
  - by apply validate_optional_str_limits in Hd.
  - by injection Hd as <-.
Qed.

Lemma TodoUpdate_validate_limits (body : gmap str Json) (u : TodoUpdate.t) :
  TodoUpdate_validate body = Some u →
  (∀ t, TodoUpdate.title u = Some (Some t) → 1 ≤ length t ≤ 100) ∧
  (∀ d, TodoUpdate.description u = Some (Some d) → length d ≤ 500).
Proof.
  unfold TodoUpdate_validate, field_set. intros H.
  apply bind_Some in H as (t & Ht & H).
  apply bind_Some in H as (d & Hd & H).
  apply bind_Some in H as (p & _ & H).
  apply bind_Some in H as (s & _ & H).
  apply bind_Some in H as (due & _ & H).
  injection H as <-. simpl. split.
  - intros t' ->. destruct (body !! py "title") as [vt|]; [|done].
    apply fmap_Some in Ht as (x & Ht & [= <-]).
    destruct vt as [|s'|]; simpl in Ht; [done | | done].
    apply fmap_Some in Ht as (y & Ht & [= <-]).
    by apply (validate_str_limits 1 100 (JString s')) in Ht as [_ Ht].
  - intros d' ->. destruct (body !! py "description") as [vd|]; [|done].
    apply fmap_Some in Hd as (x & Hd & [= <-]).
    by apply validate_optional_str_limits in Hd.
Qed.

Lemma updated_within_limits (u : TodoUpdate.t) (now : Timestamp)
    (old : Todo.t) :
  (∀ t, TodoUpdate.title u = Some (Some t) → 1 ≤ length t ≤ 100) →
  (∀ d, TodoUpdate.description u = Some (Some d) → length d ≤ 500) →
  within_limits old → within_limits (updated u now old).
Proof.
  intros Ht Hd [Hold_t Hold_d]. unfold within_limits, updated. simpl. split.
  - destruct (TodoUpdate.title u) as [[t|]|]; simpl; auto.
  - destruct (TodoUpdate.description u) as [[d|]|]; simpl; auto.
Qed.

Lemma route_within_limits (lower : str → str) (isspace : codepoint → bool)
    (clock : nat → Timestamp) (uuid4 : nat → str) (req : Request)
    (w : World) :
  Forall within_limits (todos_db w) →
  Forall within_limits (todos_db (route lower isspace clock uuid4 req w).2).
Proof.
  intros Hw.
  assert (∀ todo_id s,
    Forall within_limits
      (match first_with_id todo_id 0 (todos_db w) with
       | Some (i, old) =>
         <[i := Todo.set_updated_at (clock (now_calls w))
                  (Todo.set_status s old)]> (todos_db w)
       | None => todos_db w
       end)) as Hmark.
  { intros todo_id s.
    destruct (first_with_id todo_id 0 (todos_db w)) as [[i old]|] eqn:Hscan;
      [|done].
    apply Forall_insert; [done|].
    apply first_with_id_lookup, list_elem_of_lookup_2 in Hscan.
    rewrite Forall_forall in Hw. exact (Hw old Hscan). }
  assert (∀ todo_id body u, TodoUpdate_validate body = Some u →
    Forall within_limits (todos_db (update_todo clock todo_id u w).2))
    as Hupdate.
  { intros todo_id body u Hu. rewrite update_todo_run.
    destruct (first_with_id todo_id 0 (todos_db w)) as [[i old]|] eqn:Hscan;
      [|done].
    simpl. apply Forall_insert; [done|].
    apply first_with_id_lookup, list_elem_of_lookup_2 in Hscan.
    rewrite Forall_forall in Hw.
    destruct (TodoUpdate_validate_limits body u Hu) as [Ht Hd].
    apply updated_within_limits; auto. }
  destruct req as [skip limit sf pf | todo_id | body | todo_id body
                  | todo_id body | todo_id | | todo_id | todo_id
                  | q skip limit]; unfold route.
  - done.
  - rewrite run_fmap, get_todo_by_id_run.
    by destruct (first_with_id todo_id 0 (todos_db w)) as [[i old]|].
  - rewrite run_bind.
    destruct (TodoCreate_validate body) as [todo|] eqn:Hbody; [|done].
    simpl. apply Forall_app. split; [done|]. apply Forall_singleton.
    exact (TodoCreate_validate_limits body todo Hbody).
  - rewrite run_bind.
    destruct (TodoUpdate_validate body) as [u|] eqn:Hu; [|done].
    simpl. rewrite run_fmap. specialize (Hupdate todo_id body u Hu).
    by destruct (update_todo clock todo_id u w) as [[r|e] w'].
  - rewrite run_bind.
    destruct (TodoUpdate_validate body) as [u|] eqn:Hu; [|done].
    simpl. change (partial_update_todo clock todo_id u)
      with (update_todo clock todo_id u).
    rewrite run_fmap. specialize (Hupdate todo_id body u Hu).
    by destruct (update_todo clock todo_id u w) as [[r|e] w'].
  - rewrite run_fmap, delete_todo_run.
    destruct (first_with_id todo_id 0 (todos_db w)) as [[i old]|]; [|done].
    simpl. by apply Forall_delete.
  - unfold get_todo_stats. rewrite !run_bind. simpl.
    destruct (Z.of_nat (length (todos_db w)) =? 0)%Z; rewrite run_ret;
      match goal with |- context [StatsResponse_validate ?d] =>
        by destruct (StatsResponse_validate d) end.
  - rewrite run_fmap, (proj1 (mark_run clock todo_id w)).
    specialize (Hmark todo_id COMPLETED).
    by destruct (first_with_id todo_id 0 (todos_db w)) as [[i old]|].
  - rewrite run_fmap, (proj2 (mark_run clock todo_id w)).
    specialize (Hmark todo_id IN_PROGRESS).
    by destruct (first_with_id todo_id 0 (todos_db w)) as [[i old]|].
  - rewrite run_fmap, search_todos_run. by destruct (forallb isspace q).
Qed.

(** X10.  In every world reachable from the seeded start, every stored
    title has between 1 and 100 code points and every stored description at
    most 500: the sample data respects the limits, and a create or an
    update only stores what passed the validation of its model. *)
Theorem stored_fields_within_limits (lower : str → str)
    (isspace : codepoint → bool) (clock : nat → Timestamp)
    (uuid4 : nat → str) (w : World) :
  reachable lower isspace clock uuid4 w →
  Forall (λ todo,
            1 ≤ length (Todo.title todo) ≤ 100 ∧
            match Todo.description todo with
            | Some description => length description ≤ 500
            | None => True
            end) (todos_db w).
Proof.
  intros Hw. change (Forall within_limits (todos_db w)).
  induction Hw as [|req w Hw IH].
  - unfold within_limits. simpl.
    repeat apply Forall_cons_2; [.. | apply Forall_nil_2]; simpl; lia.
  - by apply route_within_limits.
Qed.

Lemma stored_fields_within_limits_witness :
  reachable ascii_lower ascii_isspace tick serial four_todos ∧
  Forall (λ todo,
            1 ≤ length (Todo.title todo) ≤ 100 ∧
            match Todo.description todo with
            | Some description => length description ≤ 500
            | None => True
            end) (todos_db four_todos).
Proof.
  assert (reachable ascii_lower ascii_isspace tick serial four_todos)
    as Hreach.
  { unfold four_todos, demo_route. apply reachable_request.
    apply reachable_startup. }
  split; [exact Hreach|].
  exact (stored_fields_within_limits ascii_lower ascii_isspace tick serial
           four_todos Hreach).
Defined.

(** ** Where the statistics count *)

Lemma status_str_inj (s s' : TodoStatus) :
  TodoStatus_str s = TodoStatus_str s' → s = s'.
Proof. by destruct s, s'. Qed.

Lemma priority_str_inj (p p' : TodoPriority) :
  TodoPriority_str p = TodoPriority_str p' → p = p'.
Proof. by destruct p, p'. Qed.

Lemma count_loop_status (db : list Todo.t) (acc : gmap str Z * gmap str Z)
    (s : TodoStatus) :
  (foldl count_todo acc db).1 !! TodoStatus_str s
  = if decide (count_status s db = 0) then acc.1 !! TodoStatus_str s
    else Some (default 0%Z (acc.1 !! TodoStatus_str s)
               + Z.of_nat (count_status s db))%Z.
Proof.
  unfold count_status. revert acc.
  induction db as [|todo db IH]; intros acc; simpl; [done|].
  rewrite IH, filter_cons. unfold count_todo. simpl.
  match goal with |- context [@decide (Todo.status todo = s) ?d] =>
    destruct (@decide (Todo.status todo = s) d) as [->|Hne] end; simpl.
  - rewrite lookup_insert_eq. simpl. case_decide as H0; f_equal; lia.
  - rewrite lookup_insert_ne; [done|].
    intros H. by apply status_str_inj in H.
Qed.

Lemma count_loop_priority (db : list Todo.t) (acc : gmap str Z * gmap str Z)
    (p : TodoPriority) :
  (foldl count_todo acc db).2 !! TodoPriority_str p
  = if decide (count_priority p db = 0) then acc.2 !! TodoPriority_str p
    else Some (default 0%Z (acc.2 !! TodoPriority_str p)
               + Z.of_nat (count_priority p db))%Z.
Proof.
  unfold count_priority. revert acc.
  induction db as [|todo db IH]; intros acc; simpl; [done|].
  rewrite IH, filter_cons. unfold count_todo. simpl.
  match goal with |- context [@decide (Todo.priority todo = p) ?d] =>
    destruct (@decide (Todo.priority todo = p) d) as [->|Hne] end; simpl.
  - rewrite lookup_insert_eq. simpl. case_decide as H0; f_equal; lia.
  - rewrite lookup_insert_ne; [done|].
    intros H. by apply priority_str_inj in H.
Qed.

(** X11.  The counting loop of the statistics files each todo under
    [str(member)]: for every store, the breakdown by status holds under
    [TodoStatus.NAME] the number of todos with that status when there is at
    least one and no entry otherwise, and likewise the breakdown by
    priority under [TodoPriority.NAME]. *)
Theorem stats_count_under_str_keys (db : list Todo.t) (s : TodoStatus)
    (p : TodoPriority) :
  (stats_counts db).1 !! TodoStatus_str s
  = (if decide (count_status s db = 0) then None
     else Some (Z.of_nat (count_status s db))) ∧
  (stats_counts db).2 !! TodoPriority_str p
  = (if decide (count_priority p db = 0) then None
     else Some (Z.of_nat (count_priority p db))).
Proof.
  unfold stats_counts. rewrite count_loop_status, count_loop_priority.
  simpl. split.
  - replace (_ !! TodoStatus_str s) with (@None Z) by by destruct s.
    done.
  - replace (_ !! TodoPriority_str p) with (@None Z) by by destruct p.
    done.
Qed.

(** ** Pages *)

(** X12.  Consecutive pages of the list route fit together: for
    non-negative bounds, the page of [a] todos from [skip] followed by the
    page of [b] todos from [skip + a] is the page of [a + b] todos from
    [skip], under the same filters. *)
Theorem list_pages_concatenate (skip a b : Z)
    (status_filter : option TodoStatus) (priority : option TodoPriority)
    (w : World) :
  (0 ≤ skip)%Z → (0 ≤ a)%Z → (0 ≤ b)%Z →
  ∃ first second both,
    get_all_todos skip a status_filter priority w = (Return first, w) ∧
    get_all_todos (skip + a) b status_filter priority w
    = (Return second, w) ∧
    get_all_todos skip (a + b) status_filter priority w
    = (Return both, w) ∧
    both = first ++ second.
Proof.
  intros Hskip Ha Hb. rewrite !get_all_todos_run.
  do 3 eexists. split_and!; [reflexivity .. |].
  rewrite !slice_nonneg by lia. rewrite <- fmap_app. f_equal.
  rewrite !Z2Nat.inj_add by lia.
  rewrite <- (drop_drop _ (Z.to_nat a) (Z.to_nat skip)).
  by rewrite take_take_drop.
Qed.

Lemma list_pages_concatenate_witness :
  (0 ≤ 1)%Z ∧ (0 ≤ 2)%Z ∧ (0 ≤ 5)%Z ∧
  ∃ first second both,
    get_all_todos 1 2 None None four_todos = (Return first, four_todos) ∧
    get_all_todos (1 + 2) 5 None None four_todos
    = (Return second, four_todos) ∧
    get_all_todos 1 (2 + 5) None None four_todos
    = (Return both, four_todos) ∧
    both = first ++ second.
Proof.
  split; [lia|]. split; [lia|]. split; [lia|].
  apply (list_pages_concatenate 1 2 5 None None four_todos); lia.
Defined.

(** X13.  A negative [limit] is passed to the slice as it is: with [skip]
    0 and [limit] [-k], the list route returns the filtered todos without
    the last [k] of them (none when there are at most [k]). *)
Theorem list_negative_limit (k : Z) (status_filter : option TodoStatus)
    (priority : option TodoPriority) (w : World) :
  (0 < k)%Z →
  get_all_todos 0 (- k) status_filter priority w
  = (Return
       (TodoResponse_of <$>
          take
            (length
               (List.filter (λ todo, passes priority (Todo.priority todo))
                  (List.filter
                     (λ todo, passes status_filter (Todo.status todo))
                     (todos_db w))) - Z.to_nat k)
            (List.filter (λ todo, passes priority (Todo.priority todo))
               (List.filter
                  (λ todo, passes status_filter (Todo.status todo))
                  (todos_db w)))), w).
Proof.
  intros Hk. rewrite get_all_todos_run. do 3 f_equal.
  unfold slice, slice_index.
  destruct (Z.ltb_spec 0 0) as [|_]; [lia|].
  destruct (Z.ltb_spec (0 + - k) 0) as [_|]; [|lia].
  rewrite (Z.min_l 0) by lia. simpl. f_equal. lia.
Qed.

Lemma list_negative_limit_witness :
  (0 < 1)%Z ∧
  ∃ page, get_all_todos 0 (- 1) None None four_todos
          = (Return page, four_todos) ∧
    TodoResponse.id <$> page = [py "id-0"; py "id-1"; py "id-2"].
Proof.
  split; [lia|].
  eexists. split.
  - apply (list_negative_limit 1 None None four_todos). lia.
  - reflexivity.
Defined.

(** X14.  For non-negative [skip] and [limit], a page of search results
    has at most [limit] entries and at most as many as there are matches
    after the first [skip]; [total_found] and [search_term] do not depend
    on [skip] and [limit]. *)
Theorem search_page_bounds (lower : str → str) (isspace : codepoint → bool)
    (q : str) (skip limit : Z) (w w' : World) (r : SearchResponse.t) :
  (0 ≤ skip)%Z → (0 ≤ limit)%Z →
  search_todos lower isspace q skip limit w = (Return r, w') →
  length (SearchResponse.results r) ≤ Z.to_nat limit ∧
  length (SearchResponse.results r)
  ≤ SearchResponse.total_found r - Z.to_nat skip ∧
  ∀ skip' limit' r' w'',
    search_todos lower isspace q skip' limit' w = (Return r', w'') →
    SearchResponse.total_found r' = SearchResponse.total_found r ∧
    SearchResponse.search_term r' = SearchResponse.search_term r.
Proof.
  intros Hskip Hlimit. rewrite search_todos_run.
  destruct (forallb isspace q) eqn:Hq; [done|].
  intros [= <- <-]. simpl. rewrite slice_nonneg by done.
  rewrite length_fmap, length_take, length_drop. split_and!; [lia | lia |].
  intros skip' limit' r' w''. rewrite search_todos_run, Hq.
  by intros [= <- <-].
Qed.

Lemma search_page_bounds_witness :
  (0 ≤ 0)%Z ∧ (0 ≤ 1)%Z ∧
  ∃ r,
    search_todos ascii_lower ascii_isspace (py "A") 0 1 seeded
    = (Return r, seeded) ∧
    SearchResponse.total_found r = 3 ∧
    length (SearchResponse.results r) ≤ Z.to_nat 1.
Proof.
  split; [lia|]. split; [lia|].
  assert (∃ r, search_todos ascii_lower ascii_isspace (py "A") 0 1 seeded
               = (Return r, seeded)) as [r Hrun].
  { eexists. lazy. reflexivity. }
  exists r. split; [exact Hrun|]. split.
  - rewrite search_todos_run in Hrun. injection Hrun as <-. reflexivity.
  - refine (proj1 (search_page_bounds ascii_lower ascii_isspace (py "A") 0 1
                     seeded seeded r _ _ Hrun)); lia.
Defined.

(** ** Bodies of requests *)

Lemma empty_body_is_no_update :
  TodoUpdate_validate ∅ = Some (TodoUpdate.mk None None None None None).
Proof. reflexivity. Qed.

(** X15.  A PUT with an empty body is accepted, although the route is
    documented as a full update: on an existing id it answers with the
    stored todo, of which only [updated_at] changed, to the current reading
    of the clock. *)
Theorem put_with_empty_body (lower : str → str)
    (isspace : codepoint → bool) (clock : nat → Timestamp)
    (uuid4 : nat → str) (todo_id : str) (w : World) :
  todo_id ∈ ids (todos_db w) →
  ∃ i old,
    todos_db w !! i = Some old ∧ Todo.id old = todo_id ∧
    route lower isspace clock uuid4 (PUT_todo todo_id ∅) w
    = (Return (one_todo (TodoResponse_of
                 (Todo.set_updated_at (clock (now_calls w)) old))),
       mkWorld
         (<[i := Todo.set_updated_at (clock (now_calls w)) old]>
            (todos_db w))
         (S (now_calls w)) (uuid4_calls w)).
Proof.
  intros Hin.
  destruct (first_with_id todo_id 0 (todos_db w)) as [[i old]|] eqn:Hscan.
  2: { by apply (first_with_id_missing _ 0) in Hscan. }
  exists i, old.
  pose proof (first_with_id_lookup _ _ _ _ Hscan) as Hlookup.
  pose proof Hscan as Hfound.
  apply first_with_id_found in Hfound as (? & ? & _ & _ & Hid & _).
  split_and!; [done | done |].
  unfold route. rewrite run_bind, empty_body_is_no_update. simpl.
  by rewrite run_fmap, update_todo_run, Hscan.
Qed.

Lemma put_with_empty_body_witness :
  py "id-1" ∈ ids (todos_db seeded) ∧
  ∃ i old,
    todos_db seeded !! i = Some old ∧ Todo.id old = py "id-1" ∧
    demo_route (PUT_todo (py "id-1") ∅) seeded
    = (Return (one_todo (TodoResponse_of
                 (Todo.set_updated_at (tick (now_calls seeded)) old))),
       mkWorld
         (<[i := Todo.set_updated_at (tick (now_calls seeded)) old]>
            (todos_db seeded))
         (S (now_calls seeded)) (uuid4_calls seeded)).
Proof.
  assert (py "id-1" ∈ ids (todos_db seeded)) as Hin.
  { apply (bool_decide_unpack _). reflexivity. }
  split; [exact Hin|].
  exact (put_with_empty_body ascii_lower ascii_isspace tick serial
           (py "id-1") seeded Hin).
Defined.

(** X16.  Keys of a body that are not fields of [TodoUpdate] (such as
    ["id"] or ["created_at"]) are ignored by both request models: adding or
    replacing such a key, with any value, does not change what the body
    validates to, so no request can set those keys of a stored todo. *)
Theorem unknown_keys_are_ignored (body : gmap str Json) (key : str)
    (v : Json) :
  key ∉ TodoUpdate_fields →
  TodoCreate_validate (<[key := v]> body) = TodoCreate_validate body ∧
  TodoUpdate_validate (<[key := v]> body) = TodoUpdate_validate body.
Proof.
  intros Hkey. split.
  - unfold TodoCreate_validate, field_or.
    rewrite !lookup_insert_ne; [done | intros -> ..];
      apply Hkey; unfold TodoUpdate_fields; set_solver.
  - unfold TodoUpdate_validate, field_set.
    rewrite !lookup_insert_ne; [done | intros -> ..];
      apply Hkey; unfold TodoUpdate_fields; set_solver.
Qed.

Lemma unknown_keys_are_ignored_witness :
  (py "id" ∉ TodoUpdate_fields) ∧
  TodoCreate_validate (<[py "id" := JString (py "id-0")]> body_with_status)
  = TodoCreate_validate body_with_status ∧
  TodoUpdate_validate (<[py "id" := JString (py "id-0")]> body_with_status)
  = TodoUpdate_validate body_with_status.
Proof.
  assert (py "id" ∉ TodoUpdate_fields) as Hkey.
  { apply (bool_decide_unpack _). reflexivity. }
  split; [exact Hkey|].
  exact (unknown_keys_are_ignored body_with_status (py "id")
           (JString (py "id-0")) Hkey).
Defined.

Lemma validate_title (s : str) :
  validate_str 1 100 (JString s)
  = if decide (1 ≤ length s ≤ 100) then Some s else None.
Proof.
  unfold validate_str.
  destruct (Nat.leb_spec 1 (length s));
    destruct (Nat.leb_spec (length s) 100); cbn [andb];
    case_decide; (done || lia).
Qed.

(** X17.  The title is the one required field of a create body and is
    limited in both models: a body without ["title"] is rejected by
    [TodoCreate]; a body with a title only validates exactly when the title
    has between 1 and 100 code points, for a create with description and due
    date absent and priority medium, for an update with the title as the
    one field set; a [null] title is accepted by [TodoUpdate] as a field
    set to nothing. *)
Theorem title_validation (s : str) (body : gmap str Json) :
  TodoCreate_validate (delete (py "title") body) = None ∧
  TodoCreate_validate {[ py "title" := JString s ]}
  = (if decide (1 ≤ length s ≤ 100)
     then Some (TodoCreate.mk s None MEDIUM None) else None) ∧
  TodoUpdate_validate {[ py "title" := JString s ]}
  = (if decide (1 ≤ length s ≤ 100)
     then Some (TodoUpdate.mk (Some (Some s)) None None None None)
     else None) ∧
  TodoUpdate_validate {[ py "title" := JNull ]}
  = Some (TodoUpdate.mk (Some None) None None None None).
Proof.
  split_and!.
  - unfold TodoCreate_validate. by rewrite lookup_delete_eq.
  - unfold TodoCreate_validate, field_or.
    rewrite lookup_singleton_eq, !lookup_singleton_ne by done.
    cbn [mbind option_bind]. rewrite validate_title.
    by case_decide.
  - unfold TodoUpdate_validate, field_set.
    rewrite lookup_singleton_eq, !lookup_singleton_ne by done.
    unfold validate_optional. rewrite validate_title.
    by case_decide.
  - unfold TodoUpdate_validate, field_set.
    by rewrite lookup_singleton_eq, !lookup_singleton_ne by done.
Qed.

(** ** Delete without unique ids *)

Lemma first_with_id_app_r (todo_id : str) (index : nat)
    (before rest : list Todo.t) :
  todo_id ∉ ids before →
  first_with_id todo_id index (before ++ rest)
  = first_with_id todo_id (index + length before) rest.
Proof.
  unfold ids. revert index.
  induction before as [|d before IH]; intros index Hnot; simpl.
  - f_equal. lia.
  - apply not_elem_of_cons in Hnot as [Hd Hnot].
    rewrite decide_False by done. rewrite IH by done. f_equal. lia.
Qed.

(** X18.  Delete removes the first todo with the id and only that one,
    whether or not ids are unique: the store splits at the first match, the
    todos before and after it stay in order, and a later todo with the same
    id, if there is one, is what the next lookup of the id answers with. *)
Theorem delete_removes_first_match (todo_id : str) (w : World) :
  todo_id ∈ ids (todos_db w) →
  ∃ before todo after,
    todos_db w = before ++ todo :: after ∧
    Todo.id todo = todo_id ∧ (todo_id ∉ ids before) ∧
    delete_todo todo_id w
    = (Return (mkDeleteResult (py "待办事项删除成功") todo
                 (length (before ++ after))),
       mkWorld (before ++ after) (now_calls w) (uuid4_calls w)) ∧
    get_todo_by_id todo_id (delete_todo todo_id w).2
    = match first_with_id todo_id 0 after with
      | Some (_, next) =>
        (Return (TodoResponse_of next), (delete_todo todo_id w).2)
      | None =>
        (Raise (HTTPException 404 (not_found_detail todo_id)),
         (delete_todo todo_id w).2)
      end.
Proof.
  intros Hin.
  destruct (first_with_id todo_id 0 (todos_db w)) as [[i todo]|] eqn:Hscan.
  2: { by apply (first_with_id_missing _ 0) in Hscan. }
  pose proof Hscan as Hfound.
  apply first_with_id_found in Hfound
    as (before & after & Hdb & -> & Hid & Hnot).
  exists before, todo, after.
  assert (delete_todo todo_id w
          = (Return (mkDeleteResult (py "待办事项删除成功") todo
                       (length (before ++ after))),
             mkWorld (before ++ after) (now_calls w) (uuid4_calls w)))
    as Hrun.
  { rewrite delete_todo_run, Hscan, Hdb. simpl. by rewrite delete_middle. }
  split_and!; [done .. |].
  rewrite Hrun, get_todo_by_id_run. simpl.
  rewrite first_with_id_app_r by done. simpl.
  destruct (first_with_id todo_id (length before) after)
    as [[j next]|] eqn:Hnext.
  - apply first_with_id_found in Hnext
      as (b & a & -> & _ & Hnid & Hb).
    by rewrite (first_with_id_middle todo_id 0 b a next Hb Hnid).
  - apply first_with_id_missing in Hnext.
    apply (first_with_id_missing todo_id 0) in Hnext. by rewrite Hnext.
Qed.

Lemma delete_removes_first_match_witness :
  py "same-id" ∈ ids (todos_db seeded_stuck) ∧
  ∃ before todo after,
    todos_db seeded_stuck = before ++ todo :: after ∧
    Todo.id todo = py "same-id" ∧ (py "same-id" ∉ ids before) ∧
    delete_todo (py "same-id") seeded_stuck
    = (Return (mkDeleteResult (py "待办事项删除成功") todo
                 (length (before ++ after))),
       mkWorld (before ++ after) (now_calls seeded_stuck)
         (uuid4_calls seeded_stuck)) ∧
    get_todo_by_id (py "same-id") (delete_todo (py "same-id") seeded_stuck).2
    = match first_with_id (py "same-id") 0 after with
      | Some (_, next) =>
        (Return (TodoResponse_of next),
         (delete_todo (py "same-id") seeded_stuck).2)
      | None =>
        (Raise (HTTPException 404 (not_found_detail (py "same-id"))),
         (delete_todo (py "same-id") seeded_stuck).2)
      end.
Proof.
  assert (py "same-id" ∈ ids (todos_db seeded_stuck)) as Hin.
  { apply (bool_decide_unpack _). reflexivity. }
  split; [exact Hin|].
  exact (delete_removes_first_match (py "same-id") seeded_stuck Hin).
Defined.

(** ** Update and lookup *)

(** X19.  A lookup right after an update of an existing id answers with
    the todo that the update returned: the updated todo is still the first
    one with its id. *)
Theorem update_then_get (clock : nat → Timestamp) (todo_id : str)
    (u : TodoUpdate.t) (w : World) :
  todo_id ∈ ids (todos_db w) →
  get_todo_by_id todo_id (update_todo clock todo_id u w).2
  = ((update_todo clock todo_id u w).1, (update_todo clock todo_id u w).2).
Proof.
  intros Hin. rewrite update_todo_run.
  destruct (first_with_id todo_id 0 (todos_db w)) as [[i old]|] eqn:Hscan.
  2: { by apply (first_with_id_missing _ 0) in Hscan. }
  pose proof Hscan as Hfound.
  apply first_with_id_found in Hfound as (? & ? & _ & _ & Hid & _).
  rewrite get_todo_by_id_run. simpl.
  by rewrite (first_with_id_insert todo_id _ i old
                (updated u (clock (now_calls w)) old) Hscan Hid).
Qed.

Lemma update_then_get_witness :
  py "id-1" ∈ ids (todos_db seeded) ∧
  get_todo_by_id (py "id-1")
    (update_todo tick (py "id-1")
       (TodoUpdate.mk (Some (Some (py "ship it"))) None None None None)
       seeded).2
  = ((update_todo tick (py "id-1")
        (TodoUpdate.mk (Some (Some (py "ship it"))) None None None None)
        seeded).1,
     (update_todo tick (py "id-1")
        (TodoUpdate.mk (Some (Some (py "ship it"))) None None None None)
        seeded).2).
Proof.
  assert (py "id-1" ∈ ids (todos_db seeded)) as Hin.
  { apply (bool_decide_unpack _). reflexivity. }
  split; [exact Hin|].
  exact (update_then_get tick (py "id-1")
           (TodoUpdate.mk (Some (Some (py "ship it"))) None None None None)
           seeded Hin).
Defined.

(** X20.  An update can replace a description or a due date but cannot
    remove one: whatever the update, every position of the store still
    holds a todo afterwards, and a todo that had a description (a due date)
    still has one, since a [null] in the update is skipped. *)
Theorem optional_fields_are_never_cleared (clock : nat → Timestamp)
    (todo_id : str) (u : TodoUpdate.t) (w : World) (i : nat)
    (old : Todo.t) :
  todos_db w !! i = Some old →
  ∃ new,
    todos_db (update_todo clock todo_id u w).2 !! i = Some new ∧
    (is_Some (Todo.description old) → is_Some (Todo.description new)) ∧
    (is_Some (Todo.due_date old) → is_Some (Todo.due_date new)).
Proof.
  intros Hold. rewrite update_todo_run.
  destruct (first_with_id todo_id 0 (todos_db w)) as [[j found]|] eqn:Hscan;
    [|by exists old].
  simpl. apply first_with_id_lookup in Hscan.
  destruct (decide (j = i)) as [->|Hne].
  - rewrite Hold in Hscan. injection Hscan as <-.
    exists (updated u (clock (now_calls w)) old).
    rewrite list_lookup_insert_eq by by eapply lookup_lt_Some.
    split; [done|]. unfold updated. simpl.
    split; intros [x Hx]; rewrite Hx.
    + by destruct (TodoUpdate.description u) as [[?|]|].
    + by destruct (TodoUpdate.due_date u) as [[?|]|].
  - exists old. by rewrite list_lookup_insert_ne.
Qed.

Lemma optional_fields_are_never_cleared_witness :
  ∃ old,
    todos_db seeded !! 1 = Some old ∧
    ∃ new,
      todos_db
        (update_todo tick (py "id-1")
           (TodoUpdate.mk None (Some None) None None (Some None))
           seeded).2 !! 1
      = Some new ∧
      (is_Some (Todo.description old) → is_Some (Todo.description new)) ∧
      (is_Some (Todo.due_date old) → is_Some (Todo.due_date new)).
Proof.
  eexists. split; [reflexivity|].
  exact (optional_fields_are_never_cleared tick (py "id-1")
           (TodoUpdate.mk None (Some None) None None (Some None))
           seeded 1 _ eq_refl).
Defined.
